(** * Posts studio (src/src/App.jsx): the session-gated CRUD component

    The authenticated component (the second [App] of src/src/App.jsx) is
    embedded as follows.

    - JavaScript values that travel through the component (JSON payloads,
      the token, post fields) are the inductive [value].
    - The [useState] cells and the one [localStorage] entry form the record
      [State]; the two form buffers and [localStorage] are string-keyed maps
      ([gmap string string]).
    - An [async] handler is a program tree [Prog]: state updates, [await
      fetch(...)] nodes whose continuation takes the outcome of the request,
      [await response.json()] nodes, [throw].  [try/catch/finally] are
      combinators on such trees.  A handler is a function of the render
      snapshot [c] it closes over, as in React: it reads [c] and writes
      through the setters.
    - [run] executes one handler to completion against a network oracle and
      records the requests it sends.  [step] is the event loop: a handler
      runs up to its next [await], the rest waits in the pool of pending
      tasks until the response, or the body of the response, it waits for
      arrives, in any order.
    - The view gates the user: [offers] tells which events the rendered
      controls allow, and [viewDriven] which runs a user can produce. *)

From Stdlib Require Import ZArith Lia Ascii String.
From Stdlib Require Import Sorting.Sorted Sorting.Permutation.
From stdpp Require Import base option list strings gmap.

Set Warnings "-register-all".

Open Scope string_scope.
Open Scope list_scope.
Open Scope Z_scope.

(** ** JavaScript values *)

Module Js.

(** A value as [response.json()] yields it, plus [undefined].  Numbers are
    integers; an object is the list of its own properties in insertion
    order, each key once. *)
Inductive value : Type :=
| VUndef
| VNull
| VBool (b : bool)
| VNum (n : Z)
| VStr (s : string)
| VArr (l : list value)
| VObj (kv : list (string * value)).

(** [Boolean(v)], the test behind [!v], [a || b] and [c ? x : y]. *)
Definition truthy (v : value) : bool :=
  match v with
  | VUndef | VNull => false
  | VBool b => b
  | VNum n => negb (Z.eqb n 0)
  | VStr s => negb (String.eqb s "")
  | VArr _ | VObj _ => true
  end.

(** [a || b] *)
Definition or_else (a b : value) : value := if truthy a then a else b.

(** [a ?? b] *)
Definition nullish (a b : value) : value :=
  match a with VUndef | VNull => b | _ => a end.

Fixpoint assoc (k : string) (kv : list (string * value)) : value :=
  match kv with
  | [] => VUndef
  | (k', v) :: kv' => if String.eqb k k' then v else assoc k kv'
  end.

(** [v.k] and [v?.k] for the property names the component uses (none of
    them is a built-in property of arrays or strings).  The source never
    applies the plain form to [null] or [undefined]; both forms give
    [undefined] there. *)
Definition prop (k : string) (v : value) : value :=
  match v with VObj kv => assoc k kv | _ => VUndef end.

(** [typeof v === 'object'] *)
Definition typeof_object (v : value) : bool :=
  match v with VNull | VArr _ | VObj _ => true | _ => false end.

(** [typeof v === 'string'] *)
Definition typeof_string (v : value) : bool :=
  match v with VStr _ => true | _ => false end.

Definition decimal (n : Z) : string := pretty.pretty n.

Fixpoint join (sep : string) (l : list string) : string :=
  match l with
  | [] => ""
  | [s] => s
  | s :: l' => s +:+ sep +:+ join sep l'
  end.

(** [String(v)], as a template literal and [new Error(v)] apply it.  Inside
    an array [null] and [undefined] print as the empty string. *)
Fixpoint to_string (v : value) : string :=
  match v with
  | VUndef => "undefined"
  | VNull => "null"
  | VBool true => "true"
  | VBool false => "false"
  | VNum n => decimal n
  | VStr s => s
  | VArr l =>
      join "," (map (fun x => match x with
                              | VUndef | VNull => ""
                              | _ => to_string x
                              end) l)
  | VObj _ => "[object Object]"
  end.

(** The element of [Array.prototype.join]. *)
Definition join_item (v : value) : string :=
  match v with VUndef | VNull => "" | _ => to_string v end.

Fixpoint chars (s : string) : list value :=
  match s with
  | EmptyString => []
  | String a s' => VStr (String a EmptyString) :: chars s'
  end.

(** [Object.values(v)] for a non-nullish [v].  Property keys are field
    names here, so insertion order is enumeration order. *)
Definition object_values (v : value) : list value :=
  match v with
  | VObj kv => map snd kv
  | VArr l => l
  | VStr s => chars s
  | _ => []
  end.

(** [Array.prototype.flat()], one level. *)
Definition flat (l : list value) : list value :=
  concat (map (fun x => match x with VArr l' => l' | _ => [x] end) l).

(** [a === b] on JSON values.  Exact on primitives; two arrays or objects,
    which JavaScript compares by identity, are compared by structure. *)
Fixpoint strict_eq (a b : value) : bool :=
  match a, b with
  | VUndef, VUndef | VNull, VNull => true
  | VBool x, VBool y => Bool.eqb x y
  | VNum x, VNum y => Z.eqb x y
  | VStr x, VStr y => String.eqb x y
  | VArr l1, VArr l2 =>
      (fix go (l1 l2 : list value) : bool :=
         match l1, l2 with
         | [], [] => true
         | x :: l1', y :: l2' => strict_eq x y && go l1' l2'
         | _, _ => false
         end) l1 l2
  | VObj kv1, VObj kv2 =>
      (fix go (l1 l2 : list (string * value)) : bool :=
         match l1, l2 with
         | [], [] => true
         | (k1, x) :: l1', (k2, y) :: l2' =>
             String.eqb k1 k2 && strict_eq x y && go l1' l2'
         | _, _ => false
         end) kv1 kv2
  | _, _ => false
  end.

(** [String.prototype.includes] *)
Fixpoint includes (needle s : string) : bool :=
  String.prefix needle s ||
  match s with
  | EmptyString => false
  | String _ s' => includes needle s'
  end.

(** White space as [trim] takes it (WhiteSpace and LineTerminator of
    ECMAScript), on strings in UTF-8: TAB, LF, VT, FF, CR and SP in one
    byte; U+00A0 in two; U+1680, U+2000 to U+200A, U+2028, U+2029, U+202F,
    U+205F, U+3000 and U+FEFF in three. *)
Definition is_space (a : ascii) : bool :=
  let n := nat_of_ascii a in
  (Nat.leb 9 n && Nat.leb n 13) || Nat.eqb n 32.

Definition is_space2 (a b : ascii) : bool :=
  Nat.eqb (nat_of_ascii a) 194 && Nat.eqb (nat_of_ascii b) 160.

Definition is_space3 (a b c : ascii) : bool :=
  let x := nat_of_ascii a in
  let y := nat_of_ascii b in
  let z := nat_of_ascii c in
  (Nat.eqb x 225 && Nat.eqb y 154 && Nat.eqb z 128)
  || (Nat.eqb x 226 && Nat.eqb y 128
      && ((Nat.leb 128 z && Nat.leb z 138)
          || Nat.eqb z 168 || Nat.eqb z 169 || Nat.eqb z 175))
  || (Nat.eqb x 226 && Nat.eqb y 129 && Nat.eqb z 159)
  || (Nat.eqb x 227 && Nat.eqb y 128 && Nat.eqb z 128)
  || (Nat.eqb x 239 && Nat.eqb y 187 && Nat.eqb z 191).

Fixpoint trim_start (s : string) : string :=
  match s with
  | EmptyString => EmptyString
  | String a s1 =>
      if is_space a then trim_start s1
      else match s1 with
           | EmptyString => s
           | String b s2 =>
               if is_space2 a b then trim_start s2
               else match s2 with
                    | EmptyString => s
                    | String c s3 =>
                        if is_space3 a b c then trim_start s3 else s
                    end
           end
  end.

(** Drops the white space at the end: the string is cut where only white
    space follows. *)
Fixpoint trim_end (s : string) : string :=
  match s with
  | EmptyString => EmptyString
  | String a s' =>
      match trim_start s with
      | EmptyString => EmptyString
      | _ => String a (trim_end s')
      end
  end.

(** [String.prototype.trim] *)
Definition trim (s : string) : string := trim_end (trim_start s).

End Js.

Import Js.

(** ** Data model *)

(** A post as the component reads it: the five properties it ever accesses
    of an element of the array returned by [GET /posts]. *)
Record Post : Type := mkPost {
  id : value;
  title : value;
  description : value;
  created_at : value;
  updated_at : value
}.

(** The element [v] of the fetched array, seen through its five properties. *)
Definition post_of (v : value) : Post :=
  {| id := prop "id" v;
     title := prop "title" v;
     description := prop "description" v;
     created_at := prop "created_at" v;
     updated_at := prop "updated_at" v |}.

(** The fetched [data] as the list held in [posts]: the elements of the
    array the endpoint returns.  The embedding of [posts] stops at arrays:
    the source stores a body of another shape as fetched, and the next
    render throws at [[...posts]]; such a body is read as no posts here,
    and the properties of the fetched list are stated for arrays. *)
Definition posts_of (data : value) : list Post :=
  match data with VArr l => map post_of l | _ => [] end.

(** The [useState] cells of [App], and the browser's [localStorage]. *)
Record State : Type := mkState {
  posts : list Post;
  isLoading : bool;
  error : string;
  authError : string;
  authLoading : bool;
  authMode : string;
  authForm : gmap string string;
  authToken : value;
  authUser : value;
  editingId : value;
  form : gmap string string;
  isSaving : bool;
  deletingId : value;
  localStorage : gmap string string
}.

(** The setters; each replaces one cell. *)

Definition setPosts (x : list Post) (s : State) : State :=
  {| posts := x;
     isLoading := isLoading s;
     error := error s;
     authError := authError s;
     authLoading := authLoading s;
     authMode := authMode s;
     authForm := authForm s;
     authToken := authToken s;
     authUser := authUser s;
     editingId := editingId s;
     form := form s;
     isSaving := isSaving s;
     deletingId := deletingId s;
     localStorage := localStorage s |}.

Definition setIsLoading (x : bool) (s : State) : State :=
  {| posts := posts s;
     isLoading := x;
     error := error s;
     authError := authError s;
     authLoading := authLoading s;
     authMode := authMode s;
     authForm := authForm s;
     authToken := authToken s;
     authUser := authUser s;
     editingId := editingId s;
     form := form s;
     isSaving := isSaving s;
     deletingId := deletingId s;
     localStorage := localStorage s |}.

Definition setError (x : string) (s : State) : State :=
  {| posts := posts s;
     isLoading := isLoading s;
     error := x;
     authError := authError s;
     authLoading := authLoading s;
     authMode := authMode s;
     authForm := authForm s;
     authToken := authToken s;
     authUser := authUser s;
     editingId := editingId s;
     form := form s;
     isSaving := isSaving s;
     deletingId := deletingId s;
     localStorage := localStorage s |}.

Definition setAuthError (x : string) (s : State) : State :=
  {| posts := posts s;
     isLoading := isLoading s;
     error := error s;
     authError := x;
     authLoading := authLoading s;
     authMode := authMode s;
     authForm := authForm s;
     authToken := authToken s;
     authUser := authUser s;
     editingId := editingId s;
     form := form s;
     isSaving := isSaving s;
     deletingId := deletingId s;
     localStorage := localStorage s |}.

Definition setAuthLoading (x : bool) (s : State) : State :=
  {| posts := posts s;
     isLoading := isLoading s;
     error := error s;
     authError := authError s;
     authLoading := x;
     authMode := authMode s;
     authForm := authForm s;
     authToken := authToken s;
     authUser := authUser s;
     editingId := editingId s;
     form := form s;
     isSaving := isSaving s;
     deletingId := deletingId s;
     localStorage := localStorage s |}.

Definition setAuthMode (x : string) (s : State) : State :=
  {| posts := posts s;
     isLoading := isLoading s;
     error := error s;
     authError := authError s;
     authLoading := authLoading s;
     authMode := x;
     authForm := authForm s;
     authToken := authToken s;
     authUser := authUser s;
     editingId := editingId s;
     form := form s;
     isSaving := isSaving s;
     deletingId := deletingId s;
     localStorage := localStorage s |}.

Definition setAuthForm (x : gmap string string) (s : State) : State :=
  {| posts := posts s;
     isLoading := isLoading s;
     error := error s;
     authError := authError s;
     authLoading := authLoading s;
     authMode := authMode s;
     authForm := x;
     authToken := authToken s;
     authUser := authUser s;
     editingId := editingId s;
     form := form s;
     isSaving := isSaving s;
     deletingId := deletingId s;
     localStorage := localStorage s |}.

Definition setAuthToken (x : value) (s : State) : State :=
  {| posts := posts s;
     isLoading := isLoading s;
     error := error s;
     authError := authError s;
     authLoading := authLoading s;
     authMode := authMode s;
     authForm := authForm s;
     authToken := x;
     authUser := authUser s;
     editingId := editingId s;
     form := form s;
     isSaving := isSaving s;
     deletingId := deletingId s;
     localStorage := localStorage s |}.

Definition setAuthUser (x : value) (s : State) : State :=
  {| posts := posts s;
     isLoading := isLoading s;
     error := error s;
     authError := authError s;
     authLoading := authLoading s;
     authMode := authMode s;
     authForm := authForm s;
     authToken := authToken s;
     authUser := x;
     editingId := editingId s;
     form := form s;
     isSaving := isSaving s;
     deletingId := deletingId s;
     localStorage := localStorage s |}.

Definition setEditingId (x : value) (s : State) : State :=
  {| posts := posts s;
     isLoading := isLoading s;
     error := error s;
     authError := authError s;
     authLoading := authLoading s;
     authMode := authMode s;
     authForm := authForm s;
     authToken := authToken s;
     authUser := authUser s;
     editingId := x;
     form := form s;
     isSaving := isSaving s;
     deletingId := deletingId s;
     localStorage := localStorage s |}.

Definition setForm (x : gmap string string) (s : State) : State :=
  {| posts := posts s;
     isLoading := isLoading s;
     error := error s;
     authError := authError s;
     authLoading := authLoading s;
     authMode := authMode s;
     authForm := authForm s;
     authToken := authToken s;
     authUser := authUser s;
     editingId := editingId s;
     form := x;
     isSaving := isSaving s;
     deletingId := deletingId s;
     localStorage := localStorage s |}.

Definition setIsSaving (x : bool) (s : State) : State :=
  {| posts := posts s;
     isLoading := isLoading s;
     error := error s;
     authError := authError s;
     authLoading := authLoading s;
     authMode := authMode s;
     authForm := authForm s;
     authToken := authToken s;
     authUser := authUser s;
     editingId := editingId s;
     form := form s;
     isSaving := x;
     deletingId := deletingId s;
     localStorage := localStorage s |}.

Definition setDeletingId (x : value) (s : State) : State :=
  {| posts := posts s;
     isLoading := isLoading s;
     error := error s;
     authError := authError s;
     authLoading := authLoading s;
     authMode := authMode s;
     authForm := authForm s;
     authToken := authToken s;
     authUser := authUser s;
     editingId := editingId s;
     form := form s;
     isSaving := isSaving s;
     deletingId := x;
     localStorage := localStorage s |}.

Definition setLocalStorage (x : gmap string string) (s : State) : State :=
  {| posts := posts s;
     isLoading := isLoading s;
     error := error s;
     authError := authError s;
     authLoading := authLoading s;
     authMode := authMode s;
     authForm := authForm s;
     authToken := authToken s;
     authUser := authUser s;
     editingId := editingId s;
     form := form s;
     isSaving := isSaving s;
     deletingId := deletingId s;
     localStorage := x |}.

(** ** Network and exceptions *)

(** What a [catch] clause receives: an [Error] with its message (what
    [new Error(..)] builds and what [fetch] and [response.json()] reject
    with), or a thrown value that is not an [Error]. *)
Inductive Exn : Type :=
| ErrorObj (message : string)
| NotError.

(** [err instanceof Error ? err.message : 'Something went wrong.'] *)
Definition error_text (err : Exn) : string :=
  match err with
  | ErrorObj m => m
  | NotError => "Something went wrong."
  end.

Record Request : Type := mkRequest {
  url : string;
  method : string;
  headers : list (string * string);
  body : option value    (* the value handed to [JSON.stringify] *)
}.

(** A response: its status, and what [await response.json()] gives, a parsed
    body or a rejection. *)
Record Response : Type := mkResponse {
  status : Z;
  json : Exn + value
}.

(** [response.ok] *)
Definition ok (r : Response) : bool :=
  ((200 <=? status r) && (status r <=? 299))%Z.

(** How [await fetch(..)] settles. *)
Inductive Outcome : Type :=
| Rejected (e : Exn)
| Resolved (r : Response).

(** ** Handlers as program trees *)

Inductive Prog (A : Type) : Type :=
| Ret (a : A)
| Throw (e : Exn)
| Update (f : State -> State) (k : Prog A)
| Await (req : Request) (k : Outcome -> Prog A)
| AwaitBody (req : Request) (k : Prog A).

Arguments Ret {A} a.
Arguments Throw {A} e.
Arguments Update {A} f k.
Arguments Await {A} req k.
Arguments AwaitBody {A} req k.

Fixpoint bind {A B : Type} (p : Prog A) (f : A -> Prog B) : Prog B :=
  match p with
  | Ret a => f a
  | Throw e => Throw e
  | Update g k => Update g (bind k f)
  | Await req k => Await req (fun o => bind (k o) f)
  | AwaitBody req k => AwaitBody req (bind k f)
  end.

#[global] Instance Prog_ret : MRet Prog := @Ret.
#[global] Instance Prog_bind : MBind Prog := fun A B f p => bind p f.

(** [try { p } catch (err) { h err }] *)
Fixpoint try_catch {A : Type} (p : Prog A) (h : Exn -> Prog A) : Prog A :=
  match p with
  | Ret a => Ret a
  | Throw e => h e
  | Update g k => Update g (try_catch k h)
  | Await req k => Await req (fun o => try_catch (k o) h)
  | AwaitBody req k => AwaitBody req (try_catch k h)
  end.

(** [try { p } finally { fin }]: [fin] runs on both exits, then the result
    or the exception of [p] goes on. *)
Fixpoint try_finally {A : Type} (p : Prog A) (fin : Prog unit) : Prog A :=
  match p with
  | Ret a => bind fin (fun _ => Ret a)
  | Throw e => bind fin (fun _ => Throw e)
  | Update g k => Update g (try_finally k fin)
  | Await req k => Await req (fun o => try_finally (k o) fin)
  | AwaitBody req k => AwaitBody req (try_finally k fin)
  end.

(** A call of a setter. *)
Definition set (f : State -> State) : Prog unit := Update f (Ret tt).

(** [await fetch(..)]: a rejected promise is thrown at the [await]. *)
Definition fetch (req : Request) : Prog Response :=
  Await req (fun o => match o with
                      | Rejected e => Throw e
                      | Resolved r => Ret r
                      end).

(** [await response.json()], where [r] answers [req].  The body arrives
    after the response: the handler waits at [AwaitBody], filed under the
    request, and then gets the parsed body or the rejection that [r]
    carries. *)
Definition response_json (req : Request) (r : Response) : Prog value :=
  AwaitBody req (match json r with
                 | inl e => Throw e
                 | inr v => Ret v
                 end).

(** [if (b) throw new Error(m)] *)
Definition throw_when (b : bool) (m : string) : Prog unit :=
  if b then Throw (ErrorObj m) else Ret tt.

(** ** The component *)

Definition API_BASE : string := "http://127.0.0.1:8000/api".
Definition AUTH_URL : string := API_BASE +:+ "/auth".
Definition POSTS_URL : string := API_BASE +:+ "/posts".

(** A field of a form buffer, [form.title].  The buffers hold their fields
    in every state the component reaches ([forms_always_complete]); a
    missing one reads as the empty string. *)
Definition field (m : gmap string string) (k : string) : string :=
  default "" (m !! k).

Definition emptyForm : gmap string string :=
  <["title" := ""]> (<["description" := ""]> ∅).

Definition emptyAuthForm : gmap string string :=
  <["name" := ""]> (<["email" := ""]> (<["password" := ""]>
    (<["passwordConfirmation" := ""]> ∅))).

(** [localStorage.getItem('auth_token') || ''] *)
Definition storedToken (ls : gmap string string) : value :=
  VStr (default "" (ls !! "auth_token")).

(** The state of the first render. *)
Definition initialState (ls : gmap string string) : State :=
  {| posts := [];
     isLoading := true;
     error := "";
     authError := "";
     authLoading := false;
     authMode := "login";
     authForm := emptyAuthForm;
     authToken := storedToken ls;
     authUser := VNull;
     editingId := VNull;
     form := emptyForm;
     isSaving := false;
     deletingId := VNull;
     localStorage := ls |}.

Definition isEditing (c : State) : bool := negb (strict_eq (editingId c) VNull).
Definition isAuthed (c : State) : bool := truthy (authToken c).

Definition bearer (token : value) : string * string :=
  ("Authorization", "Bearer " +:+ to_string token).

Definition resetForm : Prog unit :=
  set (setForm emptyForm);;
  set (setEditingId VNull).

Definition clearAuth : Prog unit :=
  set (fun s => setLocalStorage (delete "auth_token" (localStorage s)) s);;
  set (setAuthToken (VStr ""));;
  set (setAuthUser VNull).

(** The [catch] clause of [fetchPosts]. *)
Definition fetchPosts_catch (err : Exn) : Prog unit :=
  set (setError (error_text err));;
  match err with
  | ErrorObj m => if includes "Session expired" m then clearAuth else Ret tt
  | NotError => Ret tt
  end.

Definition listRequest (c : State) : Request :=
  {| url := POSTS_URL;
     method := "GET";
     headers := [bearer (authToken c)];
     body := None |}.

Definition fetchPosts (c : State) : Prog unit :=
  if negb (truthy (authToken c)) then
    set (setIsLoading false);;
    set (setError "Sign in to load posts.")
  else
    set (setIsLoading true);;
    set (setError "");;
    try_finally
      (try_catch
         (response ← fetch (listRequest c);
          (if negb (ok response) then
             throw_when (status response =? 401)%Z
                        "Session expired. Please sign in again.";;
             Throw (ErrorObj "Failed to fetch posts.")
           else Ret tt);;
          data ← response_json (listRequest c) response;
          set (setPosts (posts_of data)))
         fetchPosts_catch)
      (set (setIsLoading false)).

(** The request of [fetchMe]. *)
Definition meRequest (token : value) : Request :=
  {| url := AUTH_URL +:+ "/me";
     method := "GET";
     headers := [bearer token];
     body := None |}.

Definition fetchMe (token : value) : Prog unit :=
  if negb (truthy token) then Ret tt
  else
    try_catch
      (response ← fetch (meRequest token);
       if negb (ok response) then clearAuth
       else
         data ← response_json (meRequest token) response;
         set (setAuthUser data))
      (fun _ => clearAuth).

Definition handleChange (name value : string) : Prog unit :=
  set (fun s => setForm (<[name := value]> (form s)) s).

Definition handleAuthChange (name value : string) : Prog unit :=
  set (fun s => setAuthForm (<[name := value]> (authForm s)) s).

Definition handleAuthMode (mode : string) : Prog unit :=
  set (setAuthMode mode);;
  set (setAuthError "").

Definition extractToken (payload : value) : value :=
  if negb (truthy payload) || negb (typeof_object payload) then VStr ""
  else
    or_else
      (or_else
         (or_else (prop "access_token" payload) (prop "token" payload))
         (prop "access_token" (prop "data" payload)))
      (VStr "").

Definition authRequest (c : State) : Request :=
  let register := String.eqb (authMode c) "register" in
  {| url := if register then AUTH_URL +:+ "/register"
            else AUTH_URL +:+ "/login";
     method := "POST";
     headers := [("Content-Type", "application/json");
                 ("Accept", "application/json")];
     body :=
       Some (if register then
               VObj [("name", VStr (trim (field (authForm c) "name")));
                     ("email", VStr (trim (field (authForm c) "email")));
                     ("password", VStr (field (authForm c) "password"));
                     ("password_confirmation",
                      VStr (field (authForm c) "passwordConfirmation"))]
             else
               VObj [("email", VStr (trim (field (authForm c) "email")));
                     ("password", VStr (field (authForm c) "password"))]) |}.

(** The message of a refused sign-in: [data?.message], a string
    [data?.error], the flattened [data?.errors], or the generic text. *)
Definition authFailureMessage (data : value) : value :=
  or_else
    (or_else
       (or_else
          (prop "message" data)
          (if typeof_string (prop "error" data) then prop "error" data
           else VNull))
       (if truthy (prop "errors" data) then
          VStr (join " " (map join_item
                            (flat (object_values (prop "errors" data)))))
        else VNull))
    (VStr "Authentication failed.").

Definition handleAuthSubmit (c : State) : Prog unit :=
  set (setAuthLoading true);;
  set (setAuthError "");;
  try_finally
    (try_catch
       (response ← fetch (authRequest c);
        (* [await response.json().catch(() => ({}))] *)
        data ← try_catch (response_json (authRequest c) response)
                 (fun _ => Ret (VObj []));
        if negb (ok response) then
          Throw (ErrorObj (to_string (authFailureMessage data)))
        else
          let token := extractToken data in
          if negb (truthy token) then
            Throw (ErrorObj "No token returned from the API.")
          else
            set (fun s => setLocalStorage
                            (<["auth_token" := to_string token]>
                               (localStorage s)) s);;
            set (setAuthToken token);;
            set (setAuthForm emptyAuthForm))
       (fun err => set (setAuthError (error_text err))))
    (set (setAuthLoading false)).

Definition logoutRequest (c : State) : Request :=
  {| url := AUTH_URL +:+ "/logout";
     method := "POST";
     headers := [bearer (authToken c)];
     body := None |}.

Definition handleLogout (c : State) : Prog unit :=
  if negb (truthy (authToken c)) then Ret tt
  else
    set (setAuthLoading true);;
    set (setAuthError "");;
    try_finally
      (_ ← fetch (logoutRequest c); Ret tt)
      (clearAuth;;
       set (setAuthLoading false)).

Definition submitRequest (c : State) : Request :=
  {| url := if isEditing c
            then POSTS_URL +:+ "/" +:+ to_string (editingId c)
            else POSTS_URL;
     method := if isEditing c then "PUT" else "POST";
     headers := [("Content-Type", "application/json");
                 bearer (authToken c)];
     body := Some (VObj [("title", VStr (trim (field (form c) "title")));
                         ("description",
                          VStr (trim (field (form c) "description")))]) |}.

Definition handleSubmit (c : State) : Prog unit :=
  if String.eqb (trim (field (form c) "title")) ""
     || String.eqb (trim (field (form c) "description")) ""
  then set (setError "Title and description are required.")
  else if negb (truthy (authToken c))
  then set (setError "Sign in to create or edit posts.")
  else
    set (setIsSaving true);;
    set (setError "");;
    try_finally
      (try_catch
         (response ← fetch (submitRequest c);
          throw_when (negb (ok response))
            ("Failed to " +:+ (if isEditing c then "update" else "create")
               +:+ " post.");;
          resetForm;;
          fetchPosts c)
         (fun err => set (setError (error_text err))))
      (set (setIsSaving false)).

(** The form inputs hold text: a title or description that is not a string
    enters the buffer as its string. *)
Definition handleEdit (post : Post) : Prog unit :=
  set (setEditingId (id post));;
  set (setForm
         (<["title" := to_string (nullish (title post) (VStr ""))]>
            (<["description" :=
                 to_string (nullish (description post) (VStr ""))]> ∅))).

Definition handleCancelEdit : Prog unit := resetForm.

Definition deleteRequest (c : State) (postId : value) : Request :=
  {| url := POSTS_URL +:+ "/" +:+ to_string postId;
     method := "DELETE";
     headers := [bearer (authToken c)];
     body := None |}.

(** [confirm] is [window.confirm]: the answer of the user to the prompt. *)
Definition handleDelete (c : State) (confirm : string -> bool)
    (postId : value) : Prog unit :=
  let confirmed := confirm "Delete this post? This cannot be undone." in
  if negb confirmed then Ret tt
  else
    set (setDeletingId postId);;
    set (setError "");;
    try_finally
      (try_catch
         (response ← fetch (deleteRequest c postId);
          throw_when (negb (ok response)) "Failed to delete post.";;
          set (fun s =>
                 setPosts
                   (List.filter
                      (fun post => negb (strict_eq (id post) postId))
                      (posts s)) s))
         (fun err => set (setError (error_text err))))
      (set (setDeletingId VNull)).

(** The body of [useEffect(.., [authToken])]: the async calls it makes
    without awaiting them, or the two setters of the signed-out branch. *)
Definition tokenEffect (c : State) : list (Prog unit) :=
  if truthy (authToken c) then [fetchMe (authToken c); fetchPosts c]
  else [set (setPosts []);; set (setIsLoading false)].

(** ** Running one handler to completion *)

(** [run net p s sent]: [net n] is how the [n]-th request sent settles, and
    the body of a response arrives as soon as it is awaited.  The result is
    the value or the uncaught exception of [p], the final state and the
    requests sent, oldest first. *)
Fixpoint run {A : Type} (net : nat -> Outcome) (p : Prog A) (s : State)
    (sent : list Request) : (Exn + A) * State * list Request :=
  match p with
  | Ret a => (inr a, s, sent)
  | Throw e => (inl e, s, sent)
  | Update f k => run net k (f s) sent
  | Await req k => run net (k (net (length sent))) s (sent ++ [req])
  | AwaitBody _ k => run net k s sent
  end.

(** A handler started from the render of [c] with nothing sent yet. *)
Definition exec {A : Type} (net : nat -> Outcome) (handler : State -> Prog A)
    (c : State) : (Exn + A) * State * list Request :=
  run net (handler c) c [].

Definition final {A : Type} (r : (Exn + A) * State * list Request) : State :=
  snd (fst r).

Definition requests {A : Type} (r : (Exn + A) * State * list Request)
    : list Request := snd r.

(** ** Derived view state *)

(** [Array.prototype.sort(cmp)].  The comparator returns a number, [None]
    standing for [NaN], which the sort reads as [0].  The sort of ECMAScript
    is stable and, for a consistent comparator, its result is the one of
    every stable sort: it is an insertion sort here. *)
Section ArraySort.
Context {A : Type}.
Variable cmp : A -> A -> option Z.

(** [x] may stay in front of [y]: [cmp(x, y) <= 0]. *)
Definition sort_before (x y : A) : bool :=
  match cmp x y with
  | Some d => d <=? 0
  | None => true
  end.

Fixpoint sort_insert (x : A) (l : list A) : list A :=
  match l with
  | [] => [x]
  | y :: l' => if sort_before x y then x :: y :: l'
               else y :: sort_insert x l'
  end.

Fixpoint array_sort (l : list A) : list A :=
  match l with
  | [] => []
  | x :: l' => sort_insert x (array_sort l')
  end.
End ArraySort.

Section View.
(** [dateTime v] is [new Date(v).getTime()], [None] for [NaN] (an invalid
    date); [dateFormat] is the [Intl.DateTimeFormat('en-US', ..).format]
    of the source.  Both belong to the JavaScript engine. *)
Variable dateTime : value -> option Z.
Variable dateFormat : Z -> string.

(** [new Date(x) - new Date(y)] *)
Definition date_diff (x y : value) : option Z :=
  match dateTime x, dateTime y with
  | Some tx, Some ty => Some (tx - ty)
  | _, _ => None
  end.

(** [new Date(x) > new Date(y)] *)
Definition date_gt (x y : value) : bool :=
  match dateTime x, dateTime y with
  | Some tx, Some ty => ty <? tx
  | _, _ => false
  end.

(** [(a, b) => new Date(b.created_at) - new Date(a.created_at)] *)
Definition byCreatedDesc (a b : Post) : option Z :=
  date_diff (created_at b) (created_at a).

Definition sortedPosts (posts : list Post) : list Post :=
  array_sort byCreatedDesc posts.

(** The callback of [posts.reduce(.., null)]; [None] is [null]. *)
Definition later (latest : option Post) (post : Post) : option Post :=
  match latest with
  | None => Some post
  | Some l => if date_gt (updated_at post) (updated_at l) then Some post
              else Some l
  end.

Definition latestUpdated (posts : list Post) : option Post :=
  if Nat.eqb (length posts) 0 then None
  else fold_left later posts None.

Definition formatDate (v : value) : value :=
  if negb (truthy v) then VStr "-"
  else match dateTime v with
       | None => v
       | Some t => VStr (dateFormat t)
       end.
End View.

(** *** A date reader for the examples

    [isoDay] reads the date-only form [YYYY-MM-DD] of ECMAScript (midnight
    UTC, in milliseconds since the epoch), numbers, booleans and [null] as
    [new Date] does, and takes every other value as an invalid date.  The
    examples use it on date-only strings and on strings no engine reads as
    a date. *)
Module IsoDay.

Definition digit (a : ascii) : option Z :=
  let n := Z.of_nat (nat_of_ascii a) in
  if (48 <=? n) && (n <=? 57) then Some (n - 48) else None.

Fixpoint number (acc : Z) (l : list ascii) : option Z :=
  match l with
  | [] => Some acc
  | a :: l' => match digit a with
               | Some d => number (10 * acc + d) l'
               | None => None
               end
  end.

Definition leap (y : Z) : bool :=
  ((y mod 4 =? 0) && negb (y mod 100 =? 0)) || (y mod 400 =? 0).

Definition monthLength (y m : Z) : Z :=
  if m =? 2 then (if leap y then 29 else 28)
  else if (m =? 4) || (m =? 6) || (m =? 9) || (m =? 11) then 30
  else 31.

(** Days from 1970-01-01 to the civil date [y-m-d]. *)
Definition daysFromCivil (y m d : Z) : Z :=
  let y' := if m <=? 2 then y - 1 else y in
  let era := y' / 400 in
  let yoe := y' - era * 400 in
  let mp := (m + 9) mod 12 in
  let doy := (153 * mp + 2) / 5 + d - 1 in
  let doe := yoe * 365 + yoe / 4 - yoe / 100 + doy in
  era * 146097 + doe - 719468.

Definition parse (s : string) : option Z :=
  match list_ascii_of_string s with
  | [y1; y2; y3; y4; "-"%char; m1; m2; "-"%char; d1; d2] =>
      match number 0 [y1; y2; y3; y4], number 0 [m1; m2],
            number 0 [d1; d2] with
      | Some y, Some m, Some d =>
          if (1 <=? m) && (m <=? 12) && (1 <=? d) && (d <=? monthLength y m)
          then Some (daysFromCivil y m d * 86400000)
          else None
      | _, _, _ => None
      end
  | _ => None
  end.

Definition isoDay (v : value) : option Z :=
  match v with
  | VStr s => parse s
  | VNum n => Some n
  | VBool b => Some (if b then 1 else 0)
  | VNull => Some 0
  | _ => None
  end.

(** The format is the engine's; the examples print the time value. *)
Definition plain (t : Z) : string := decimal t.

End IsoDay.

(** ** The event loop

    A handler runs until its next [await]; what follows the [await] waits
    in [pending] for the outcome of the request, or for the body of the
    response.  Responses and bodies arrive in any order.  After each run
    React renders, and the effect on [authToken] fires when the token
    differs from the one of the previous render. *)

(** What waits: the rest of a handler after [await fetch(req)], which
    takes the outcome of the request, or after [await response.json()] on
    the response to [req]. *)
Inductive Task : Type :=
| mkTask (req : Request) (k : Outcome -> Prog unit)
| mkBody (req : Request) (k : Prog unit).

Definition request (t : Task) : Request :=
  match t with
  | mkTask req _ => req
  | mkBody req _ => req
  end.

(** The rest of the handler; the outcome matters to a waiting [fetch]. *)
Definition resume (t : Task) (o : Outcome) : Prog unit :=
  match t with
  | mkTask _ k => k o
  | mkBody _ k => k
  end.

Record World : Type := mkWorld {
  state : State;
  pending : list Task;
  sent : list Request;
  seenToken : value      (* [authToken] when the effect last ran *)
}.

(** Runs [p] to its first [await] or to its end.  An exception nobody
    catches ends the handler (an unhandled rejection). *)
Fixpoint advance (p : Prog unit) (w : World) : World :=
  match p with
  | Ret _ => w
  | Throw _ => w
  | Update f k =>
      advance k {| state := f (state w); pending := pending w;
                   sent := sent w; seenToken := seenToken w |}
  | Await req k =>
      {| state := state w; pending := pending w ++ [mkTask req k];
         sent := sent w ++ [req]; seenToken := seenToken w |}
  | AwaitBody req k =>
      {| state := state w; pending := pending w ++ [mkBody req k];
         sent := sent w; seenToken := seenToken w |}
  end.

(** The effect of [useEffect(.., [authToken])], with the render it closes
    over. *)
Definition runEffect (w : World) : World :=
  let c := state w in
  fold_left (fun w' p => advance p w') (tokenEffect c)
    {| state := state w; pending := pending w; sent := sent w;
       seenToken := authToken c |}.

(** The render after a run: the effect fires when its dependency changed. *)
Definition commit (w : World) : World :=
  if strict_eq (authToken (state w)) (seenToken w) then w else runEffect w.

(** The first render; effects always run on mount. *)
Definition mount (ls : gmap string string) : World :=
  runEffect {| state := initialState ls; pending := []; sent := [];
               seenToken := VUndef |}.

Inductive Event : Type :=
| Arrives (i : nat) (o : Outcome)     (* the [i]-th pending request settles *)
| BodyArrives (i : nat)               (* the body awaited by the [i]-th task *)
| Typed (name text : string)          (* [handleChange] *)
| AuthTyped (name text : string)      (* [handleAuthChange] *)
| AuthModePicked (mode : string)      (* [handleAuthMode] *)
| AuthSubmitted                       (* [handleAuthSubmit] *)
| LoggedOut                           (* [handleLogout] *)
| Submitted                           (* [handleSubmit] *)
| EditClicked (post : Post)           (* [handleEdit] *)
| EditCancelled                       (* [handleCancelEdit] *)
| DeleteClicked (confirm : string -> bool) (postId : value)
| Refreshed.                          (* [fetchPosts] from the button *)

(** The handler a user event starts, closed over the current render. *)
Definition handlerOf (c : State) (e : Event) : Prog unit :=
  match e with
  | Arrives _ _ => Ret tt
  | BodyArrives _ => Ret tt
  | Typed name text => handleChange name text
  | AuthTyped name text => handleAuthChange name text
  | AuthModePicked mode => handleAuthMode mode
  | AuthSubmitted => handleAuthSubmit c
  | LoggedOut => handleLogout c
  | Submitted => handleSubmit c
  | EditClicked post => handleEdit post
  | EditCancelled => handleCancelEdit
  | DeleteClicked confirm postId => handleDelete c confirm postId
  | Refreshed => fetchPosts c
  end.

(** The world with the [i]-th task taken out of the pool. *)
Definition without (i : nat) (w : World) : World :=
  {| state := state w; pending := delete i (pending w);
     sent := sent w; seenToken := seenToken w |}.

Definition step (w : World) (e : Event) : World :=
  match e with
  | Arrives i o =>
      match pending w !! i with
      | Some (mkTask _ k) => commit (advance (k o) (without i w))
      | _ => w
      end
  | BodyArrives i =>
      match pending w !! i with
      | Some (mkBody _ k) => commit (advance k (without i w))
      | _ => w
      end
  | _ => commit (advance (handlerOf (state w) e) w)
  end.

Definition steps (w : World) (es : list Event) : World := fold_left step es w.

(** *** What the view offers

    [offers s e]: the render of [s] (the JSX returned by [App]) lets the
    event [e] happen.  Responses and bodies arrive whatever is rendered.
    The sign-in form is rendered while no token is held ([!isAuthed &&]),
    the name and the confirmation in register mode only, its buttons
    disabled while [authLoading].  Sign out, the post form, Refresh and the
    list panel are rendered while a token is held ([isAuthed &&]): Cancel
    while editing, the submit button disabled while [isSaving], the cards
    with Edit and Delete once the list is loaded, Delete disabled for the
    post being deleted.  A disabled button gives no click, and a form whose
    submit button is disabled is not submitted. *)

(** [a] and [b] are the same element of [posts]. *)
Definition samePost (a b : Post) : bool :=
  strict_eq (id a) (id b) && strict_eq (title a) (title b)
  && strict_eq (description a) (description b)
  && strict_eq (created_at a) (created_at b)
  && strict_eq (updated_at a) (updated_at b).

Definition offers (s : State) (e : Event) : bool :=
  match e with
  | Arrives _ _ => true
  | BodyArrives _ => true
  | Typed name _ =>
      isAuthed s && (String.eqb name "title" || String.eqb name "description")
  | AuthTyped name _ =>
      negb (isAuthed s)
      && (String.eqb name "email" || String.eqb name "password"
          || (String.eqb (authMode s) "register"
              && (String.eqb name "name"
                  || String.eqb name "passwordConfirmation")))
  | AuthModePicked mode =>
      negb (isAuthed s) && negb (authLoading s)
      && (String.eqb mode "login" || String.eqb mode "register")
  | AuthSubmitted => negb (isAuthed s) && negb (authLoading s)
  | LoggedOut => isAuthed s
  | Submitted => isAuthed s && negb (isSaving s)
  | EditClicked post =>
      isAuthed s && negb (isLoading s) && existsb (samePost post) (posts s)
  | EditCancelled => isAuthed s && isEditing s
  | DeleteClicked _ postId =>
      isAuthed s && negb (isLoading s)
      && existsb (fun post => strict_eq (id post) postId
                              && negb (strict_eq (deletingId s) (id post)))
           (posts s)
  | Refreshed => isAuthed s
  end.

(** A run a user can produce: each event is offered by the view of the
    world it meets. *)
Fixpoint viewDriven (w : World) (es : list Event) : Prop :=
  match es with
  | [] => True
  | e :: es' => offers (state w) e = true /\ viewDriven (step w e) es'
  end.

(** The tokens held along a run: at its start and after each event. *)
Fixpoint heldTokens (w : World) (es : list Event) : list value :=
  authToken (state w)
  :: match es with
     | [] => []
     | e :: es' => heldTokens (step w e) es'
     end.

(** The request of a list fetch, as [fetchPosts] sends it. *)
Definition isListRequest (req : Request) : bool :=
  String.eqb (url req) POSTS_URL && String.eqb (method req) "GET".

(** The invariant of the signed-out view. *)
Definition signedOutEmpty (s : State) : Prop :=
  truthy (authToken s) = false -> posts s = [].

(** ** Vocabulary of the properties *)

Section SortOrder.
Context {A : Type}.
Variable key : A -> Z.

(** Larger keys first. *)
Definition desc (a b : A) : Prop := key b <= key a.
End SortOrder.

Section ViewVocabulary.
Variable dateTime : value -> option Z.

(** The time value of [created_at], [0] when there is none. *)
Definition createdStamp (p : Post) : Z := default 0 (dateTime (created_at p)).

(** [q] was updated before the time [t], resp. no later than [t]. *)
Definition updatedBefore (t : Z) (q : Post) : Prop :=
  exists tq, dateTime (updated_at q) = Some tq /\ tq < t.

Definition updatedBy (t : Z) (q : Post) : Prop :=
  exists tq, dateTime (updated_at q) = Some tq /\ tq <= t.

(** The claim's words: [r] is a post of the list and no dated post of the
    list was updated later than [r]. *)
Definition maximalUpdated (posts : list Post) (r : Post) : Prop :=
  r ∈ posts /\
  forall q tq, q ∈ posts -> dateTime (updated_at q) = Some tq ->
    exists t, dateTime (updated_at r) = Some t /\ tq <= t.
End ViewVocabulary.

Definition confirmPrompt : string := "Delete this post? This cannot be undone.".

Definition withoutPost (postId : value) (l : list Post) : list Post :=
  List.filter (fun post => negb (strict_eq (id post) postId)) l.

(** What the list fetch after a save leaves in [posts]: the fetched array
    when the answer is in 200..299 and parses, else the list as it was. *)
Definition refetched (o : Outcome) (old : list Post) : list Post :=
  match o with
  | Resolved r =>
      if ok r then match json r with
                   | inr data => posts_of data
                   | inl _ => old
                   end
      else old
  | Rejected _ => old
  end.

(** The three places a token is looked for, in the order of the source. *)
Definition tokenCandidates (payload : value) : list value :=
  [prop "access_token" payload; prop "token" payload;
   prop "access_token" (prop "data" payload)].

(** [v] is an object that has the property [k]. *)
Definition hasProp (k : string) (v : value) : bool :=
  match v with
  | VObj kv => existsb (fun p => String.eqb k (fst p)) kv
  | _ => false
  end.

(** The claim's words: the first of the three fields that is present. *)
Definition firstPresent (payload : value) : option value :=
  if hasProp "access_token" payload then Some (prop "access_token" payload)
  else if hasProp "token" payload then Some (prop "token" payload)
  else if hasProp "access_token" (prop "data" payload)
       then Some (prop "access_token" (prop "data" payload))
  else None.

(** What [await response.json().catch(() => ({}))] gives. *)
Definition payloadOf (r : Response) : value :=
  match json r with
  | inl _ => VObj []
  | inr v => v
  end.

(** [careful b p]: every [await] of [p] is followed, whatever the outcome,
    by a careful program; and when [b] holds, the updates [p] makes before
    its next [await] leave an empty cached list empty.  What follows the
    response of a list fetch, or the body of one, may fill the list ([b]
    is false there). *)
Inductive careful : bool -> Prog unit -> Prop :=
| careful_ret b u : careful b (Ret u)
| careful_throw b e : careful b (Throw e)
| careful_update b f k :
    (b = true -> forall s, posts s = [] -> posts (f s) = []) ->
    careful b k -> careful b (Update f k)
| careful_await b req k :
    (forall o, careful (negb (isListRequest req)) (k o)) ->
    careful b (Await req k)
| careful_body b req k :
    careful (negb (isListRequest req)) k -> careful b (AwaitBody req k).

Definition taskCareful (t : Task) : Prop :=
  forall o, careful (negb (isListRequest (request t))) (resume t o).

(** The effect has run for the token held, and the pending tasks come
    from careful programs. *)
Definition settled (w : World) : Prop :=
  strict_eq (authToken (state w)) (seenToken w) = true
  /\ Forall taskCareful (pending w).

(** No response of a list fetch, and no body of such a response, arrives
    while no token is held. *)
Definition fresh (w : World) (e : Event) : Prop :=
  match e with
  | Arrives i _ | BodyArrives i =>
      match pending w !! i with
      | Some t =>
          isListRequest (request t) = true ->
          truthy (authToken (state w)) = true
      | None => True
      end
  | _ => True
  end.

(** The worlds reached from the first render through fresh events. *)
Inductive reachedFresh (ls : gmap string string) : World -> Prop :=
| reached_mount : reachedFresh ls (mount ls)
| reached_step w e :
    reachedFresh ls w -> fresh w e -> reachedFresh ls (step w e).

(** Both form buffers hold all their fields. *)
Definition formsComplete (s : State) : Prop :=
  is_Some (form s !! "title") /\ is_Some (form s !! "description")
  /\ is_Some (authForm s !! "name") /\ is_Some (authForm s !! "email")
  /\ is_Some (authForm s !! "password")
  /\ is_Some (authForm s !! "passwordConfirmation").

(** [keeps I p]: every update of [p], before and after its [await]s,
    preserves [I]. *)
Inductive keeps (I : State -> Prop) : Prog unit -> Prop :=
| keeps_ret u : keeps I (Ret u)
| keeps_throw e : keeps I (Throw e)
| keeps_update f k :
    (forall s, I s -> I (f s)) -> keeps I k -> keeps I (Update f k)
| keeps_await req k : (forall o, keeps I (k o)) -> keeps I (Await req k)
| keeps_body req k : keeps I k -> keeps I (AwaitBody req k).

(** ** Data of the examples *)

Module Examples.

Definition stored : gmap string string := <["auth_token" := "abc"]> ∅.

(** The first render with the token ["abc"] in the store, and without. *)
Definition signedIn : State := initialState stored.
Definition signedOut : State := initialState ∅.

Definition reply (st : Z) (data : value) : Outcome :=
  Resolved {| status := st; json := inr data |}.

Definition always (o : Outcome) : nat -> Outcome := fun _ => o.

Definition yes : string -> bool := fun _ => true.
Definition no : string -> bool := fun _ => false.

Definition post (i : Z) (created updated : string) : Post :=
  {| id := VNum i; title := VStr "title"; description := VStr "text";
     created_at := VStr created; updated_at := VStr updated |}.

Definition january : Post := post 1 "2024-01-02" "2024-01-02".
Definition march : Post := post 2 "2024-03-01" "2024-03-05".
Definition december : Post := post 3 "2023-12-31" "2024-03-05".
Definition undated : Post := post 4 "unknown" "unknown".

Definition postJson (i : Z) : value :=
  VObj [("id", VNum i); ("title", VStr "title"); ("description", VStr "text");
        ("created_at", VStr "2024-01-02"); ("updated_at", VStr "2024-01-02")].

(** A filled post form over [signedIn]. *)
Definition drafted : State :=
  setForm (<["title" := " Hello "]> (<["description" := "world"]> ∅)) signedIn.

Definition blank : State :=
  setForm (<["title" := "   "]> (<["description" := "world"]> ∅)) signedIn.

(** A save answered 201, then a list fetch answered with one post. *)
Definition savedThenListed (n : nat) : Outcome :=
  match n with
  | O => reply 201 (postJson 9)
  | _ => reply 200 (VArr [postJson 9])
  end.

End Examples.

Import Examples IsoDay.

(** ** The rest of the component *)

(** What [clearAuth] leaves of a state. *)
Definition cleared (s : State) : State :=
  setAuthUser VNull
    (setAuthToken (VStr "")
       (setLocalStorage (delete "auth_token" (localStorage s)) s)).


(** The answer carries the signal [fetchPosts] takes for an expired
    session: a 401, or an error whose message holds 'Session expired'. *)
Definition signalsExpiry (o : Outcome) : bool :=
  match o with
  | Rejected (ErrorObj m) => includes "Session expired" m
  | Rejected NotError => false
  | Resolved r =>
      if ok r then
        match json r with
        | inl (ErrorObj m) => includes "Session expired" m
        | _ => false
        end
      else (status r =? 401)%Z
  end.

(** *** A program between two [await]s *)

(** The state after the updates [p] makes before its next [await] (or its
    end), and the task that then waits. *)
Fixpoint settle (p : Prog unit) (s : State) : State :=
  match p with
  | Update f k => settle k (f s)
  | _ => s
  end.

Fixpoint next (p : Prog unit) : option Task :=
  match p with
  | Update _ k => next k
  | Await req k => Some (mkTask req k)
  | AwaitBody req k => Some (mkBody req k)
  | _ => None
  end.

(** The request that goes out when [t] starts to wait: none for a body. *)
Definition issued (t : Task) : list Request :=
  match t with
  | mkTask req _ => [req]
  | mkBody _ _ => []
  end.

(** [stable I p]: each stretch of [p] between two [await]s takes a state
    of [I] to a state of [I]. *)
Inductive stable (I : State -> Prop) : Prog unit -> Prop :=
| stable_intro p :
    (forall s, I s -> I (settle p s)) ->
    (forall t, next p = Some t -> forall o, stable I (resume t o)) ->
    stable I p.

(** [lowers F p]: when [p] ends, whatever the outcomes, the flag [F] is
    down. *)
Inductive lowers (F : State -> bool) : Prog unit -> Prop :=
| lowers_intro p :
    (next p = None -> forall s, F (settle p s) = false) ->
    (forall t, next p = Some t -> forall o, lowers F (resume t o)) ->
    lowers F p.

(** [tidy F p]: a stretch of [p] that leaves the flag [F] up found it up,
    or ends on an [await] whose continuation lowers it. *)
Inductive tidy (F : State -> bool) : Prog unit -> Prop :=
| tidy_intro p :
    (forall s, F (settle p s) = true ->
       F s = true
       \/ exists t, next p = Some t /\ forall o, lowers F (resume t o)) ->
    (forall t, next p = Some t -> forall o, tidy F (resume t o)) ->
    tidy F p.

(** The invariant [I] holds now and is kept by what waits. *)
Definition stableWorld (I : State -> Prop) (w : World) : Prop :=
  I (state w) /\ Forall (fun t => forall o, stable I (resume t o)) (pending w).

(** When the flag [F] is up, a pending task will lower it; and what
    waits is tidy. *)
Definition tidyWorld (F : State -> bool) (w : World) : Prop :=
  (F (state w) = true ->
   exists t, t ∈ pending w /\ forall o, lowers F (resume t o))
  /\ Forall (fun t => forall o, tidy F (resume t o)) (pending w).

(** The four in-progress indicators of the view. *)
Definition deleting (s : State) : bool := negb (strict_eq (deletingId s) VNull).

Definition busy (s : State) : bool :=
  isLoading s || isSaving s || authLoading s || deleting s.

(** The stored token is the held one: a reload starts from it. *)
Definition persistedIsHeld (s : State) : Prop :=
  storedToken (localStorage s) = VStr (to_string (authToken s)).

(** *** What the view shows *)

Section Render.
Variable dateTime : value -> option Z.
Variable dateFormat : Z -> string.

(** [latestUpdated?.updated_at ? formatDate(latestUpdated.updated_at) : '-'] *)
Definition lastUpdatedLabel (posts : list Post) : value :=
  match latestUpdated dateTime posts with
  | Some l => if truthy (updated_at l)
              then formatDate dateTime dateFormat (updated_at l)
              else VStr "-"
  | None => VStr "-"
  end.

(** The list panel: loading, the empty notice, or the cards. *)
Inductive Panel : Type :=
| LoadingPosts
| NoPostsYet
| Cards (l : list Post).

Definition listPanel (s : State) : Panel :=
  if isLoading s then LoadingPosts
  else if Nat.eqb (length (sortedPosts dateTime (posts s))) 0 then NoPostsYet
  else Cards (sortedPosts dateTime (posts s)).
End Render.

(** *** The component before authentication

    The first [App] of src/src/App.jsx: the same cells without the session,
    requests without headers of authorization. *)
Module Original.

Definition API_URL : string := "http://127.0.0.1:8000/api/posts".

Definition listRequest : Request :=
  {| url := API_URL; method := "GET"; headers := []; body := None |}.

Definition fetchPosts : Prog unit :=
  set (setIsLoading true);;
  set (setError "");;
  try_finally
    (try_catch
       (response ← fetch listRequest;
        throw_when (negb (ok response)) "Failed to fetch posts.";;
        data ← response_json listRequest response;
        set (setPosts (posts_of data)))
       (fun err => set (setError (error_text err))))
    (set (setIsLoading false)).

Definition submitRequest (c : State) : Request :=
  {| url := if isEditing c
            then API_URL +:+ "/" +:+ to_string (editingId c)
            else API_URL;
     method := if isEditing c then "PUT" else "POST";
     headers := [("Content-Type", "application/json")];
     body := Some (VObj [("title", VStr (trim (field (form c) "title")));
                         ("description",
                          VStr (trim (field (form c) "description")))]) |}.

Definition handleSubmit (c : State) : Prog unit :=
  if String.eqb (trim (field (form c) "title")) ""
     || String.eqb (trim (field (form c) "description")) ""
  then set (setError "Title and description are required.")
  else
    set (setIsSaving true);;
    set (setError "");;
    try_finally
      (try_catch
         (response ← fetch (submitRequest c);
          throw_when (negb (ok response))
            ("Failed to " +:+ (if isEditing c then "update" else "create")
               +:+ " post.");;
          resetForm;;
          fetchPosts)
         (fun err => set (setError (error_text err))))
      (set (setIsSaving false)).

Definition deleteRequest (postId : value) : Request :=
  {| url := API_URL +:+ "/" +:+ to_string postId;
     method := "DELETE";
     headers := [];
     body := None |}.

Definition handleDelete (confirm : string -> bool) (postId : value)
    : Prog unit :=
  let confirmed := confirm "Delete this post? This cannot be undone." in
  if negb confirmed then Ret tt
  else
    set (setDeletingId postId);;
    set (setError "");;
    try_finally
      (try_catch
         (response ← fetch (deleteRequest postId);
          throw_when (negb (ok response)) "Failed to delete post.";;
          set (fun s =>
                 setPosts
                   (List.filter
                      (fun post => negb (strict_eq (id post) postId))
                      (posts s)) s))
         (fun err => set (setError (error_text err))))
      (set (setDeletingId VNull)).

End Original.

(** The request without its header of authorization. *)
Definition withoutAuth (req : Request) : Request :=
  {| url := url req;
     method := method req;
     headers := List.filter
                  (fun h => negb (String.eqb (fst h) "Authorization"))
                  (headers req);
     body := body req |}.

(** The result of a handler with the headers of authorization dropped from
    the requests it sent. *)
Definition unauthenticated {A : Type}
    (r : (Exn + A) * State * list Request) : (Exn + A) * State * list Request :=
  (fst (fst r), final r, map withoutAuth (requests r)).

(** [sendsOnly P p]: every request [p] can send satisfies [P]. *)
Inductive sendsOnly (P : Request -> Prop) : Prog unit -> Prop :=
| sendsOnly_ret u : sendsOnly P (Ret u)
| sendsOnly_throw e : sendsOnly P (Throw e)
| sendsOnly_update f k : sendsOnly P k -> sendsOnly P (Update f k)
| sendsOnly_await req k :
    P req -> (forall o, sendsOnly P (k o)) -> sendsOnly P (Await req k)
| sendsOnly_body req k : sendsOnly P k -> sendsOnly P (AwaitBody req k).

(** A sign-in: the one request made to obtain a token. *)
Definition isSignIn (req : Request) : Prop :=
  url req = AUTH_URL +:+ "/login" \/ url req = AUTH_URL +:+ "/register".

(** [req] carries the bearer of a truthy token of [tokens]. *)
Definition carries (tokens : list value) (req : Request) : Prop :=
  exists token, token ∈ tokens /\ truthy token = true
                /\ bearer token ∈ headers req.

(** What the handlers send behind the view: a sign-in, or a request with a
    token of [tokens]; and what they send by themselves, where a DELETE
    goes out whatever the token. *)
Definition licensed (tokens : list value) (req : Request) : Prop :=
  isSignIn req \/ carries tokens req.

Definition licensedOrDelete (tokens : list value) (req : Request) : Prop :=
  method req = "DELETE" \/ licensed tokens req.

(** What was sent, and what the pending tasks can still send, satisfies
    [P]. *)
Definition politeWorld (P : Request -> Prop) (w : World) : Prop :=
  Forall P (sent w)
  /\ Forall (fun t => forall o, sendsOnly P (resume t o)) (pending w).

(** Each handler the run starts sends only requests that the licence [L]
    grants to the token of its render. *)
Fixpoint politeRun (L : list value -> Request -> Prop) (w : World)
    (es : list Event) : Prop :=
  match es with
  | [] => True
  | e :: es' =>
      sendsOnly (L [authToken (state w)]) (handlerOf (state w) e)
      /\ politeRun L (step w e) es'
  end.

(** ** More data for the examples *)

Module MoreExamples.

(** A second post created on the day of [january]. *)
Definition twin : Post := post 5 "2024-01-02" "2024-01-03".




(** A refusal that nevertheless carries a token. *)
Definition refusalWithToken : value :=
  VObj [("message", VStr "Invalid credentials.");
        ("access_token", VStr "t0k")].

Definition tokenPayload : value := VObj [("access_token", VStr "t0k")].

(** The profile arrives with its body, then the list with its body. *)
Definition bothArrive : list Event :=
  [Arrives 0 (reply 200 (VObj [("email", VStr "a@b.c")]));
   BodyArrives 1;
   Arrives 0 (reply 200 (VArr [postJson 1]));
   BodyArrives 0].

(** A loaded view holding one post. *)
Definition loaded : State := setIsLoading false (setPosts [january] signedIn).

End MoreExamples.

Import MoreExamples.

(** * Properties *)

(** ** List fetch *)

Lemma ok_401 (r : Response) : status r = 401 -> ok r = false.
Proof. unfold ok. intros ->. reflexivity. Qed.

Section FetchPosts.
Variable net : nat -> Outcome.
Variable c : State.
Hypothesis Htoken : truthy (authToken c) = true.

Lemma fetchPosts_expired (r : Response) :
  net 0%nat = Resolved r -> status r = 401 ->
  final (exec net fetchPosts c) =
  setIsLoading false
    (setAuthUser VNull
       (setAuthToken (VStr "")
          (setLocalStorage (delete "auth_token" (localStorage c))
             (setError "Session expired. Please sign in again."
                (setError "" (setIsLoading true c)))))).
Proof.
  intros Hnet Hst. unfold exec, fetchPosts. rewrite Htoken. simpl.
  rewrite Hnet. simpl. rewrite (ok_401 r Hst), Hst. reflexivity.
Qed.

Lemma fetchPosts_failed (r : Response) :
  net 0%nat = Resolved r -> ok r = false -> status r <> 401 ->
  final (exec net fetchPosts c) =
  setIsLoading false
    (setError "Failed to fetch posts." (setError "" (setIsLoading true c))).
Proof.
  intros Hnet Hok Hst. unfold exec, fetchPosts. rewrite Htoken. simpl.
  rewrite Hnet. simpl. rewrite Hok. simpl.
  apply Z.eqb_neq in Hst. rewrite Hst. reflexivity.
Qed.

End FetchPosts.

(** C3: a list fetch answered with 401 removes the stored token, empties the
    held token and the user, and shows the session-expired message; answered
    with another status outside 200..299 it shows the generic message and
    leaves the token, the user and the store as they were. *)
Theorem fetchPosts_401_else_generic (net : nat -> Outcome) (c : State)
    (r : Response) :
  truthy (authToken c) = true ->
  net 0%nat = Resolved r ->
  let s' := final (exec net fetchPosts c) in
  (status r = 401 ->
     localStorage s' !! "auth_token" = None
     /\ authToken s' = VStr "" /\ authUser s' = VNull
     /\ isAuthed s' = false
     /\ error s' = "Session expired. Please sign in again.")
  /\ (ok r = false -> status r <> 401 ->
        error s' = "Failed to fetch posts."
        /\ localStorage s' = localStorage c
        /\ authToken s' = authToken c /\ authUser s' = authUser c).
Proof.
  intros Htoken Hnet s'. subst s'. split.
  - intros Hst. rewrite (fetchPosts_expired net c Htoken r Hnet Hst). simpl.
    rewrite lookup_delete_eq. auto.
  - intros Hok Hst. rewrite (fetchPosts_failed net c Htoken r Hnet Hok Hst).
    simpl. auto.
Qed.

(** ** Strict equality *)

(** Induction on values, through the arrays and objects they nest. *)
Lemma value_nested_ind (P : value -> Prop) :
  P VUndef -> P VNull -> (forall b, P (VBool b)) -> (forall n, P (VNum n)) ->
  (forall s, P (VStr s)) ->
  (forall l, Forall P l -> P (VArr l)) ->
  (forall kv, Forall (fun p => P (snd p)) kv -> P (VObj kv)) ->
  forall v, P v.
Proof.
  intros Hundef Hnull Hbool Hnum Hstr Harr Hobj.
  fix IH 1.
  intros [| | b | n | s | l | kv];
    [exact Hundef | exact Hnull | apply Hbool | apply Hnum | apply Hstr | |].
  - apply Harr. induction l as [| x l IHl]; constructor; [apply IH | exact IHl].
  - apply Hobj. induction kv as [| [k x] kv IHkv]; constructor;
      [apply IH | exact IHkv].
Qed.

Lemma strict_eq_spec (a b : value) : strict_eq a b = true <-> a = b.
Proof.
  revert b. induction a as [| | x | x | x | l IH | kv IH] using value_nested_ind;
    intros [| | y | y | y | l2 | kv2]; simpl;
    try (split; [discriminate | congruence]);
    try (split; reflexivity).
  - rewrite Bool.eqb_true_iff. split; congruence.
  - rewrite Z.eqb_eq. split; congruence.
  - rewrite String.eqb_eq. split; congruence.
  - revert l2. induction IH as [| x l Hx _ IHl]; intros [| y l2];
      try (split; [discriminate | congruence]); [split; reflexivity |].
    rewrite andb_true_iff, Hx, IHl. split.
    + intros [-> H]. congruence.
    + intros H. injection H as -> ->. split; reflexivity.
  - revert kv2. induction IH as [| [k x] kv Hx _ IHkv]; intros [| [k2 y] kv2];
      try (split; [discriminate | congruence]); [split; reflexivity |].
    simpl in Hx. rewrite !andb_true_iff, String.eqb_eq, Hx, IHkv. split.
    + intros [[-> ->] H]. congruence.
    + intros H. injection H as -> -> ->. repeat split; reflexivity.
Qed.

Lemma strict_eq_refl (a : value) : strict_eq a a = true.
Proof. apply strict_eq_spec. reflexivity. Qed.

Lemma strict_eq_false (a b : value) : strict_eq a b = false <-> a <> b.
Proof.
  rewrite <- strict_eq_spec. destruct (strict_eq a b); split; congruence.
Qed.

(** ** Sorting *)

Section ArraySortFacts.
Context {A : Type}.
Variable cmp : A -> A -> option Z.

Lemma sort_insert_perm (x : A) (l : list A) : sort_insert cmp x l ≡ₚ x :: l.
Proof.
  induction l as [| y l IH]; simpl; [reflexivity |].
  destruct (sort_before cmp x y); [reflexivity |].
  rewrite IH. apply perm_swap.
Qed.

Lemma array_sort_perm (l : list A) : array_sort cmp l ≡ₚ l.
Proof.
  induction l as [| x l IH]; simpl; [reflexivity |].
  rewrite sort_insert_perm, IH. reflexivity.
Qed.

(** On a domain where the comparator is the difference of a key, taken so
    that larger keys come first. *)
Variable key : A -> Z.
Variable dom : A -> Prop.
Hypothesis cmp_key : forall a b, dom a -> dom b -> cmp a b = Some (key b - key a).

Lemma sort_insert_sorted (x : A) (l : list A) :
  dom x -> Forall dom l ->
  StronglySorted (desc key) l -> StronglySorted (desc key) (sort_insert cmp x l).
Proof.
  intros Hx Hl Hs. induction Hs as [| y l Hs IH Hy]; simpl.
  - repeat constructor.
  - apply Forall_cons in Hl as [Hdy Hl].
    unfold sort_before. rewrite (cmp_key x y Hx Hdy).
    destruct (Z.leb_spec (key y - key x) 0) as [Hle | Hgt].
    + constructor; [constructor; assumption |].
      constructor; [unfold desc; lia |].
      eapply Forall_impl; [exact Hy |]. unfold desc. intros z Hz. simpl in Hz. lia.
    + constructor; [apply IH; assumption |].
      rewrite sort_insert_perm. constructor; [unfold desc; lia | exact Hy].
Qed.

Lemma array_sort_sorted (l : list A) :
  Forall dom l -> StronglySorted (desc key) (array_sort cmp l).
Proof.
  induction l as [| x l IH]; simpl; intros Hl; [constructor |].
  apply Forall_cons in Hl as [Hx Hl].
  apply sort_insert_sorted; [assumption | | apply IH; assumption].
  rewrite array_sort_perm. assumption.
Qed.

End ArraySortFacts.


(** ** Derived view state *)

Section ViewFacts.
Variable dateTime : value -> option Z.
Variable dateFormat : Z -> string.

Lemma byCreatedDesc_stamp (a b : Post) :
  is_Some (dateTime (created_at a)) -> is_Some (dateTime (created_at b)) ->
  byCreatedDesc dateTime a b = Some (createdStamp dateTime b - createdStamp dateTime a).
Proof.
  intros [ta Ha] [tb Hb]. unfold byCreatedDesc, date_diff, createdStamp.
  rewrite Ha, Hb. reflexivity.
Qed.

Lemma sortedPosts_perm (posts : list Post) : sortedPosts dateTime posts ≡ₚ posts.
Proof. apply array_sort_perm. Qed.


(** *** Last updated *)

Lemma latestUpdated_cons (p : Post) (l : list Post) :
  latestUpdated dateTime (p :: l) = fold_left (later dateTime) l (Some p).
Proof. reflexivity. Qed.

(** The fold, started at [best] with the posts [before ++ best :: mid]
    behind it: [best] is the first maximum so far. *)
Lemma fold_later_first_max (l : list Post) :
  forall (before : list Post) (best : Post) (mid : list Post) (t : Z),
    dateTime (updated_at best) = Some t ->
    Forall (fun p => is_Some (dateTime (updated_at p))) l ->
    Forall (updatedBefore dateTime t) before -> Forall (updatedBy dateTime t) mid ->
    exists (r : Post) (b a : list Post) (t' : Z),
      fold_left (later dateTime) l (Some best) = Some r
      /\ before ++ best :: mid ++ l = b ++ r :: a
      /\ dateTime (updated_at r) = Some t'
      /\ Forall (updatedBefore dateTime t') b /\ Forall (updatedBy dateTime t') a.
Proof.
  induction l as [| q l IH]; intros before best mid t Ht Hl Hb Hm.
  - exists best, before, mid, t. rewrite app_nil_r. auto.
  - apply Forall_cons in Hl as [[tq Hq] Hl]. simpl.
    unfold date_gt. rewrite Hq, Ht.
    destruct (Z.ltb_spec t tq) as [Hlt | Hge].
    + destruct (IH (before ++ best :: mid) q [] tq Hq Hl) as
        (r & b & a & t' & Hr & Hsplit & Htr & Hbs & Has).
      * apply Forall_app. split; [| constructor].
        -- eapply Forall_impl; [exact Hb |].
           intros x (tx & Hx & Hlx). exists tx. split; [assumption | lia].
        -- exists t. split; [assumption | lia].
        -- eapply Forall_impl; [exact Hm |].
           intros x (tx & Hx & Hlx). exists tx. split; [assumption | lia].
      * constructor.
      * exists r, b, a, t'. repeat split; try assumption.
        rewrite <- Hsplit. rewrite <- app_assoc. reflexivity.
    + destruct (IH before best (mid ++ [q]) t Ht Hl Hb) as
        (r & b & a & t' & Hr & Hsplit & Htr & Hbs & Has).
      * apply Forall_app. split; [assumption |].
        constructor; [| constructor]. exists tq. split; [assumption | lia].
      * exists r, b, a, t'. repeat split; try assumption.
        rewrite <- Hsplit. rewrite <- app_assoc. reflexivity.
Qed.

(** C5, amended: when every [updated_at] of the cached list reads as a date,
    [latestUpdated] is [null] for the empty list, and for a non-empty list
    it is the first post whose [updated_at] is the greatest: every post in
    front of it was updated strictly earlier, every post behind it no
    later. *)
Theorem latestUpdated_first_maximum (posts : list Post) :
  Forall (fun p => is_Some (dateTime (updated_at p))) posts ->
  match posts with
  | [] => latestUpdated dateTime posts = None
  | _ :: _ =>
      exists (r : Post) (before after : list Post) (t : Z),
        latestUpdated dateTime posts = Some r
        /\ posts = before ++ r :: after
        /\ dateTime (updated_at r) = Some t
        /\ Forall (updatedBefore dateTime t) before /\ Forall (updatedBy dateTime t) after
  end.
Proof.
  destruct posts as [| p l]; [reflexivity |]. intros Hl.
  apply Forall_cons in Hl as [[t Hp] Hl]. rewrite latestUpdated_cons.
  destruct (fold_later_first_max l [] p [] t Hp Hl) as
    (r & b & a & t' & Hr & Hsplit & Htr & Hbs & Has); try constructor.
  exists r, b, a, t'. auto.
Qed.

(** *** Date formatting *)


End ViewFacts.

(** ** Logout *)

(** C9: a logout with a token held removes the stored token and empties the
    held token and the user, however the one request to the server settles:
    any status, or a rejection. *)
Theorem handleLogout_clears_session (net : nat -> Outcome) (c : State) :
  truthy (authToken c) = true ->
  let r := exec net handleLogout c in
  localStorage (final r) !! "auth_token" = None
  /\ authToken (final r) = VStr ""
  /\ authUser (final r) = VNull
  /\ requests r = [logoutRequest c].
Proof.
  intros Htoken. unfold exec, handleLogout. rewrite Htoken. simpl.
  destruct (net 0%nat) as [e | resp]; simpl; rewrite lookup_delete_eq; auto.
Qed.

(** ** Delete *)

Lemma withoutPost_spec (postId : value) (l : list Post) (p : Post) :
  p ∈ withoutPost postId l <-> p ∈ l /\ id p <> postId.
Proof.
  unfold withoutPost. rewrite !list_elem_of_In, filter_In, negb_true_iff.
  rewrite strict_eq_false. reflexivity.
Qed.

Lemma handleDelete_declined (net : nat -> Outcome) (c : State)
    (confirm : string -> bool) (postId : value) :
  confirm confirmPrompt = false ->
  exec net (fun c => handleDelete c confirm postId) c = (inr tt, c, []).
Proof.
  intros Hno. unfold exec, handleDelete. fold confirmPrompt. rewrite Hno.
  reflexivity.
Qed.

Lemma handleDelete_done (net : nat -> Outcome) (c : State)
    (confirm : string -> bool) (postId : value) (r : Response) :
  confirm confirmPrompt = true -> net 0%nat = Resolved r -> ok r = true ->
  exec net (fun c => handleDelete c confirm postId) c =
  (inr tt,
   setDeletingId VNull
     (setPosts (withoutPost postId (posts c))
        (setError "" (setDeletingId postId c))),
   [deleteRequest c postId]).
Proof.
  intros Hyes Hnet Hok. unfold exec, handleDelete. fold confirmPrompt.
  rewrite Hyes. simpl. rewrite Hnet. simpl. rewrite Hok. reflexivity.
Qed.

(** C7: a declined delete sends nothing and leaves the state, so the cached
    list, as it was; a confirmed delete answered in 200..299 sends the one
    DELETE request and nothing else, and the cached list loses the posts
    whose [id] is the targeted one and no other, in the same order. *)
Theorem handleDelete_confirmation (net : nat -> Outcome) (c : State)
    (confirm : string -> bool) (postId : value) :
  let r := exec net (fun c => handleDelete c confirm postId) c in
  (confirm confirmPrompt = false -> requests r = [] /\ final r = c)
  /\ (confirm confirmPrompt = true ->
      forall resp, net 0%nat = Resolved resp -> ok resp = true ->
        requests r = [deleteRequest c postId]
        /\ method (deleteRequest c postId) = "DELETE"
        /\ posts (final r) = withoutPost postId (posts c)
        /\ forall p, p ∈ posts (final r) <-> p ∈ posts c /\ id p <> postId).
Proof.
  intros r. subst r. split.
  - intros Hno. rewrite (handleDelete_declined net c confirm postId Hno).
    split; reflexivity.
  - intros Hyes resp Hnet Hok.
    rewrite (handleDelete_done net c confirm postId resp Hyes Hnet Hok).
    simpl. do 3 (split; [reflexivity |]).
    intros p. apply withoutPost_spec.
Qed.

(** ** Post form *)

#[local] Opaque emptyForm emptyAuthForm.

Lemma handleSubmit_blank (net : nat -> Outcome) (c : State) :
  trim (field (form c) "title") = ""
  \/ trim (field (form c) "description") = "" ->
  exec net handleSubmit c =
  (inr tt, setError "Title and description are required." c, []).
Proof.
  intros Hblank. unfold exec, handleSubmit.
  replace (String.eqb (trim (field (form c) "title")) ""
           || String.eqb (trim (field (form c) "description")) "")
    with true; [reflexivity |].
  symmetry. apply orb_true_iff.
  destruct Hblank as [-> | ->]; [left | right]; reflexivity.
Qed.


Lemma handleSubmit_saved (net : nat -> Outcome) (c : State) (r : Response) :
  trim (field (form c) "title") <> "" ->
  trim (field (form c) "description") <> "" ->
  truthy (authToken c) = true ->
  net 0%nat = Resolved r -> ok r = true ->
  let res := exec net handleSubmit c in
  requests res = [submitRequest c; listRequest c]
  /\ form (final res) = emptyForm
  /\ editingId (final res) = VNull
  /\ isSaving (final res) = false
  /\ posts (final res) = refetched (net 1%nat) (posts c).
Proof.
  intros Ht Hd Htoken Hnet Hok. unfold exec, handleSubmit.
  apply String.eqb_neq in Ht, Hd. rewrite Ht, Hd, Htoken. simpl.
  rewrite Hnet. simpl. rewrite Hok. simpl.
  unfold fetchPosts. rewrite Htoken. simpl.
  destruct (net 1%nat) as [e | r1]; simpl.
  - destruct e as [m |]; simpl; [destruct (includes _ m) |]; simpl; auto.
  - unfold response_json. destruct (ok r1); simpl.
    + destruct (json r1) as [e | data]; simpl; [| auto].
      destruct e as [m |]; simpl; [destruct (includes _ m) |]; simpl; auto.
    + destruct (status r1 =? 401); simpl; auto.
Qed.

(** C8: a submission whose title or description is empty once trimmed sets
    the validation message and sends nothing; a create or update answered in
    200..299 resets the form buffer and the editing id, and then fetches the
    list: the requests are the save and the list fetch, and the cached list
    is what the list fetch leaves, whatever the save returned. *)
Theorem handleSubmit_validates_then_refetches (net : nat -> Outcome)
    (c : State) :
  let res := exec net handleSubmit c in
  (trim (field (form c) "title") = ""
   \/ trim (field (form c) "description") = "" ->
   requests res = []
   /\ error (final res) = "Title and description are required."
   /\ posts (final res) = posts c)
  /\ (trim (field (form c) "title") <> "" ->
      trim (field (form c) "description") <> "" ->
      truthy (authToken c) = true ->
      forall r, net 0%nat = Resolved r -> ok r = true ->
        form (final res) = emptyForm
        /\ editingId (final res) = VNull
        /\ requests res = [submitRequest c; listRequest c]
        /\ posts (final res) = refetched (net 1%nat) (posts c)).
Proof.
  intros res. subst res. split.
  - intros Hblank. rewrite (handleSubmit_blank net c Hblank). auto.
  - intros Ht Hd Htoken r Hnet Hok.
    destruct (handleSubmit_saved net c r Ht Hd Htoken Hnet Hok)
      as (Hreq & Hform & Hid & _ & Hposts).
    auto.
Qed.

(** ** Sign-in *)

Lemma extractToken_first_truthy (payload : value) :
  extractToken payload =
  default (VStr "") (List.find truthy (tokenCandidates payload)).
Proof.
  unfold extractToken, tokenCandidates, or_else.
  destruct payload as [| | b | n | s | l | kv]; simpl; try reflexivity.
  - destruct b; reflexivity.
  - rewrite orb_true_r. reflexivity.
  - rewrite orb_true_r. reflexivity.
  - destruct (truthy (assoc "access_token" kv)) eqn:H1; simpl.
    { repeat (rewrite H1; simpl). reflexivity. }
    destruct (truthy (assoc "token" kv)) eqn:H2; simpl.
    { repeat (rewrite H2; simpl). reflexivity. }
    destruct (truthy (prop "access_token" (assoc "data" kv))) eqn:H3;
      simpl; repeat (rewrite H3; simpl); reflexivity.
Qed.

Lemma extractToken_truthy (payload token : value) :
  List.find truthy (tokenCandidates payload) = Some token ->
  extractToken payload = token /\ truthy token = true.
Proof.
  intros H. rewrite extractToken_first_truthy, H. split; [reflexivity |].
  apply find_some in H. apply H.
Qed.

Lemma handleAuthSubmit_token (net : nat -> Outcome) (c : State)
    (r : Response) (token : value) :
  net 0%nat = Resolved r -> ok r = true ->
  extractToken (payloadOf r) = token -> truthy token = true ->
  exec net handleAuthSubmit c =
  (inr tt,
   setAuthLoading false
     (setAuthForm emptyAuthForm
        (setAuthToken token
           (setLocalStorage
              (<["auth_token" := to_string token]> (localStorage c))
              (setAuthError "" (setAuthLoading true c))))),
   [authRequest c]).
Proof.
  intros Hnet Hok Htok Htruthy. unfold exec, handleAuthSubmit. simpl.
  rewrite Hnet. simpl. unfold payloadOf in Htok.
  destruct (json r) as [e | data].
  - vm_compute in Htok. subst token. discriminate Htruthy.
  - simpl. rewrite Hok. simpl. rewrite Htok, Htruthy. reflexivity.
Qed.

Lemma handleAuthSubmit_no_token (net : nat -> Outcome) (c : State)
    (r : Response) :
  net 0%nat = Resolved r -> ok r = true ->
  truthy (extractToken (payloadOf r)) = false ->
  exec net handleAuthSubmit c =
  (inr tt,
   setAuthLoading false
     (setAuthError "No token returned from the API."
        (setAuthError "" (setAuthLoading true c))),
   [authRequest c]).
Proof.
  intros Hnet Hok Htok. unfold exec, handleAuthSubmit. simpl.
  rewrite Hnet. simpl. unfold payloadOf in Htok.
  destruct (json r) as [e | data]; simpl; rewrite Hok; simpl;
    [| rewrite Htok]; reflexivity.
Qed.

(** C2, amended: on a login or register response in 200..299 the token is
    the first truthy one of the top-level [access_token], the top-level
    [token] and the nested [data.access_token].  When there is one, it is
    stored and held, so the session is authenticated; when none of the three
    is truthy, the 'no token returned' error is shown and the token and the
    store stay as they were.  In particular a payload with only a truthy
    [data.access_token] signs in with it. *)
Theorem handleAuthSubmit_first_truthy_token (net : nat -> Outcome)
    (c : State) (r : Response) :
  net 0%nat = Resolved r -> ok r = true ->
  let s' := final (exec net handleAuthSubmit c) in
  match List.find truthy (tokenCandidates (payloadOf r)) with
  | Some token =>
      authToken s' = token
      /\ localStorage s' !! "auth_token" = Some (to_string token)
      /\ isAuthed s' = true /\ authError s' = ""
  | None =>
      authError s' = "No token returned from the API."
      /\ authToken s' = authToken c /\ localStorage s' = localStorage c
  end
  /\ forall t, truthy t = true ->
       json r = inr (VObj [("data", VObj [("access_token", t)])]) ->
       authToken s' = t /\ isAuthed s' = true.
Proof.
  intros Hnet Hok s'. subst s'. split.
  - destruct (List.find truthy (tokenCandidates (payloadOf r)))
      as [token |] eqn:Hfind.
    + destruct (extractToken_truthy _ _ Hfind) as [Htok Htruthy].
      rewrite (handleAuthSubmit_token net c r token Hnet Hok Htok Htruthy).
      unfold isAuthed. simpl. rewrite lookup_insert_eq. auto.
    + rewrite (handleAuthSubmit_no_token net c r Hnet Hok).
      * simpl. auto.
      * rewrite extractToken_first_truthy, Hfind. reflexivity.
  - intros t Ht Hjson.
    rewrite (handleAuthSubmit_token net c r t Hnet Hok); [| | exact Ht].
    + unfold isAuthed. simpl. auto.
    + unfold payloadOf. rewrite Hjson. rewrite extractToken_first_truthy.
      simpl. rewrite Ht. reflexivity.
Qed.

(** ** The token guard *)


Lemma handleDelete_ignores_token (net : nat -> Outcome) (c : State)
    (confirm : string -> bool) (postId : value) :
  confirm confirmPrompt = true ->
  requests (exec net (fun c => handleDelete c confirm postId) c)
  = [deleteRequest c postId].
Proof.
  intros Hyes. unfold exec, handleDelete. fold confirmPrompt. rewrite Hyes.
  simpl. destruct (net 0%nat) as [e | r]; simpl; [reflexivity |].
  destruct (ok r); reflexivity.
Qed.


(** ** One event, by cases *)

(** An event leaves the world as it is (nothing waits at its index, or
    what waits there is not what arrives), starts a handler, or resumes a
    pending task. *)
Lemma step_cases (w : World) (e : Event) :
  step w e = w
  \/ step w e = commit (advance (handlerOf (state w) e) w)
  \/ exists i t o,
       pending w !! i = Some t
       /\ (e = Arrives i o \/ e = BodyArrives i)
       /\ step w e = commit (advance (resume t o) (without i w)).
Proof.
  destruct e as [i o | i | | | | | | | | | |]; simpl; auto.
  - destruct (pending w !! i) as [[req k | req k] |] eqn:Hi; auto.
    right. right. exists i, (mkTask req k), o. auto.
  - destruct (pending w !! i) as [[req k | req k] |] eqn:Hi; auto.
    right. right. exists i, (mkBody req k), (Rejected NotError). auto.
Qed.

(** ** The signed-out view keeps no posts *)

(** Solves [careful] goals on the handlers by walking their trees. *)
Ltac careful_update_side :=
  let s := fresh "s" in
  let Hs := fresh "Hs" in
  let Hb := fresh "Hb" in
  first [ intros Hb; discriminate Hb
        | intros _ s Hs; simpl; try rewrite Hs; first [reflexivity | assumption] ].

Ltac careful_walk :=
  repeat (simpl;
    match goal with
    | |- careful _ (Ret _) => apply careful_ret
    | |- careful _ (Throw _) => apply careful_throw
    | |- careful _ (Update _ _) =>
        apply careful_update; [try careful_update_side |]
    | |- careful _ (Await _ _) =>
        let o := fresh "o" in apply careful_await; intros o
    | |- careful _ (AwaitBody _ _) => apply careful_body
    | |- careful _ ?p =>
        match p with
        | context [match ?x with _ => _ end] => destruct x
        end
    end).

Ltac careful_unfold :=
  unfold fetchPosts, fetchPosts_catch, resetForm, clearAuth, response_json,
    throw_when, fetch, set.

Lemma careful_fetchPosts (c : State) : careful true (fetchPosts c).
Proof. careful_unfold. careful_walk. Qed.

Lemma careful_fetchMe (token : value) : careful true (fetchMe token).
Proof. unfold fetchMe. careful_unfold. careful_walk. Qed.

Lemma careful_handleAuthSubmit (c : State) : careful true (handleAuthSubmit c).
Proof. unfold handleAuthSubmit. careful_unfold. careful_walk. Qed.

Lemma careful_handleLogout (c : State) : careful true (handleLogout c).
Proof. unfold handleLogout. careful_unfold. careful_walk. Qed.

Lemma careful_handleSubmit (c : State) : careful true (handleSubmit c).
Proof. unfold handleSubmit. careful_unfold. careful_walk. Qed.

Lemma careful_handleDelete (c : State) (confirm : string -> bool)
    (postId : value) : careful true (handleDelete c confirm postId).
Proof. unfold handleDelete. careful_unfold. careful_walk. Qed.


Lemma careful_handlerOf (c : State) (e : Event) : careful true (handlerOf c e).
Proof.
  destruct e; simpl.
  - constructor.
  - constructor.
  - unfold handleChange, set. careful_walk.
  - unfold handleAuthChange, set. careful_walk.
  - unfold handleAuthMode, set. careful_walk.
  - apply careful_handleAuthSubmit.
  - apply careful_handleLogout.
  - apply careful_handleSubmit.
  - unfold handleEdit, set. careful_walk.
  - unfold handleCancelEdit. careful_unfold. careful_walk.
  - apply careful_handleDelete.
  - apply careful_fetchPosts.
Qed.

(** A run to the next [await] keeps the pending tasks careful and does
    not touch [seenToken]; a careful one keeps an empty list empty. *)
Lemma advance_careful (b : bool) (p : Prog unit) :
  careful b p -> forall w,
  Forall taskCareful (pending w) ->
  Forall taskCareful (pending (advance p w))
  /\ seenToken (advance p w) = seenToken w
  /\ (b = true -> posts (state w) = [] -> posts (state (advance p w)) = []).
Proof.
  induction 1 as [b u | b e | b f k Hf Hk IH | b req k Hk IH | b req k Hk IH];
    intros w Hw; simpl; auto.
  - destruct (IH {| state := f (state w); pending := pending w;
                    sent := sent w; seenToken := seenToken w |} Hw)
      as (Hp & Hseen & Hposts).
    split; [exact Hp |]. split; [exact Hseen |].
    intros Hb Hnil. apply Hposts; [exact Hb |]. simpl. apply Hf; assumption.
  - split; [| split; [reflexivity | auto]].
    apply Forall_app. split; [assumption |].
    constructor; [| constructor]. exact Hk.
  - split; [| split; [reflexivity | auto]].
    apply Forall_app. split; [assumption |].
    constructor; [| constructor]. intros o. exact Hk.
Qed.

Lemma tokenEffect_careful (c : State) : Forall (careful true) (tokenEffect c).
Proof.
  unfold tokenEffect. destruct (truthy (authToken c)).
  - repeat constructor; [apply careful_fetchMe | apply careful_fetchPosts].
  - repeat constructor; try careful_update_side.
Qed.

Lemma tokenEffect_state (c : State) (w : World) :
  state w = c ->
  authToken (state (fold_left (fun w' p => advance p w') (tokenEffect c) w))
  = authToken c
  /\ (truthy (authToken c) = false ->
      posts (state (fold_left (fun w' p => advance p w') (tokenEffect c) w))
      = []).
Proof.
  intros <-. unfold tokenEffect.
  destruct (truthy (authToken (state w))) eqn:Htoken.
  - unfold fetchMe, fetchPosts. rewrite Htoken. simpl. split; [reflexivity | discriminate].
  - simpl. auto.
Qed.

Lemma advance_all_careful (ps : list (Prog unit)) :
  Forall (careful true) ps -> forall w,
  Forall taskCareful (pending w) ->
  Forall taskCareful (pending (fold_left (fun w' p => advance p w') ps w))
  /\ seenToken (fold_left (fun w' p => advance p w') ps w) = seenToken w.
Proof.
  induction 1 as [| p ps Hp _ IH]; intros w Hw; simpl; [auto |].
  destruct (advance_careful true p Hp w Hw) as (Hpend & Hseen & _).
  destruct (IH (advance p w) Hpend) as (Hpend' & Hseen').
  split; [exact Hpend' | congruence].
Qed.

Lemma runEffect_spec (w : World) :
  Forall taskCareful (pending w) ->
  settled (runEffect w) /\ signedOutEmpty (state (runEffect w)).
Proof.
  intros Hw. unfold runEffect, settled, signedOutEmpty.
  set (w0 := {| state := state w; pending := pending w; sent := sent w;
                seenToken := authToken (state w) |}).
  destruct (advance_all_careful _ (tokenEffect_careful (state w)) w0 Hw)
    as (Hpend & Hseen).
  destruct (tokenEffect_state (state w) w0 eq_refl) as (Htoken & Hposts).
  rewrite Hseen, Htoken. simpl. rewrite strict_eq_refl.
  repeat split; auto.
Qed.

(** The render after a run whose pending tasks are careful: it settles
    the world; the signed-out view is empty after it when it was so before
    for an unchanged token. *)
Lemma commit_spec (w : World) :
  Forall taskCareful (pending w) ->
  (strict_eq (authToken (state w)) (seenToken w) = true ->
   signedOutEmpty (state w)) ->
  settled (commit w) /\ signedOutEmpty (state (commit w)).
Proof.
  intros Hw Hsame. unfold commit.
  destruct (strict_eq (authToken (state w)) (seenToken w)) eqn:Heq.
  - split; [split; assumption | auto].
  - apply runEffect_spec. assumption.
Qed.

Lemma mount_spec (ls : gmap string string) :
  settled (mount ls) /\ signedOutEmpty (state (mount ls)).
Proof. apply runEffect_spec. constructor. Qed.

(** One event: the world stays settled, and the signed-out view stays
    empty unless the event is fresh no more. *)
Lemma step_spec (w : World) (e : Event) :
  settled w -> signedOutEmpty (state w) -> fresh w e ->
  settled (step w e) /\ signedOutEmpty (state (step w e)).
Proof.
  intros [Hseen Hpend] Hinv Hfresh.
  assert (Hrun : forall b p w0,
            careful b p ->
            state w0 = state w -> seenToken w0 = seenToken w ->
            Forall taskCareful (pending w0) ->
            (b = false -> truthy (authToken (state w)) = true) ->
            settled (commit (advance p w0))
            /\ signedOutEmpty (state (commit (advance p w0)))).
  { intros b p w0 Hp Hst Hsn Hpd Hb.
    destruct (advance_careful b p Hp w0 Hpd) as (Hpend' & Hseen' & Hposts).
    apply commit_spec; [exact Hpend' |].
    rewrite Hseen', Hsn. intros Hsame Hout.
    apply strict_eq_spec in Hsame. apply strict_eq_spec in Hseen.
    assert (Htok : authToken (state (advance p w0)) = authToken (state w))
      by congruence.
    rewrite Htok in Hout. destruct b.
    - apply Hposts; [reflexivity |]. rewrite Hst. apply Hinv. exact Hout.
    - rewrite Hb in Hout by reflexivity. discriminate. }
  destruct (step_cases w e) as [-> | [-> | (i & t & o & Hi & He & ->)]].
  - split; [split |]; assumption.
  - apply (Hrun true); [apply careful_handlerOf | reflexivity
                       | reflexivity | exact Hpend | discriminate].
  - assert (Hheld : isListRequest (request t) = true ->
                    truthy (authToken (state w)) = true).
    { destruct He as [-> | ->]; simpl in Hfresh; rewrite Hi in Hfresh;
        exact Hfresh. }
    apply (Hrun (negb (isListRequest (request t)))); simpl; auto.
    + eapply Forall_lookup_1 in Hpend; [| exact Hi]. apply Hpend.
    + apply Forall_delete. exact Hpend.
    + intros Hb. apply negb_false_iff in Hb. apply Hheld. exact Hb.
Qed.

Lemma reachedFresh_settled (ls : gmap string string) (w : World) :
  reachedFresh ls w -> settled w /\ signedOutEmpty (state w).
Proof.
  induction 1 as [| w e _ [Hs Hinv] Hfresh].
  - apply mount_spec.
  - apply step_spec; assumption.
Qed.

(** C10, amended: at the first render, and after every event of a run in
    which no response of a list fetch, and no body of such a response,
    arrives while no token is held, an empty held token comes with an empty
    cached list. *)
Theorem signedOut_view_empty_while_fresh (ls : gmap string string)
    (w : World) :
  reachedFresh ls w -> truthy (authToken (state w)) = false ->
  posts (state w) = [].
Proof. intros Hw. apply (reachedFresh_settled ls w Hw). Qed.

(** ** The form buffers always hold their fields *)

Lemma is_Some_insert (m : gmap string string) (k k' v : string) :
  is_Some (m !! k') -> is_Some (<[k := v]> m !! k').
Proof.
  intros H. rewrite lookup_insert_is_Some.
  destruct (decide (k = k')); auto.
Qed.

Ltac keeps_update_side :=
  let s := fresh "s" in
  let H := fresh "H" in
  intros s H; unfold formsComplete in *; simpl;
  first [ exact H
        | destruct H as (? & ? & ? & ? & ? & ?);
          repeat split;
          first [ assumption
                | apply is_Some_insert; assumption
                | vm_compute; eexists; reflexivity ] ].

Ltac keeps_walk :=
  repeat (simpl;
    match goal with
    | |- keeps _ (Ret _) => apply keeps_ret
    | |- keeps _ (Throw _) => apply keeps_throw
    | |- keeps _ (Update _ _) => apply keeps_update; [try keeps_update_side |]
    | |- keeps _ (Await _ _) =>
        let o := fresh "o" in apply keeps_await; intros o
    | |- keeps _ (AwaitBody _ _) => apply keeps_body
    | |- keeps _ ?p =>
        match p with
        | context [match ?x with _ => _ end] => destruct x
        end
    end).

Lemma keeps_handlerOf (c : State) (e : Event) :
  keeps formsComplete (handlerOf c e).
Proof.
  destruct e; simpl;
    unfold handleChange, handleAuthChange, handleAuthMode, handleAuthSubmit,
      handleLogout, handleSubmit, handleEdit, handleCancelEdit, handleDelete;
    careful_unfold; keeps_walk.
Qed.

Lemma keeps_tokenEffect (c : State) :
  Forall (keeps formsComplete) (tokenEffect c).
Proof.
  unfold tokenEffect.
  destruct (truthy (authToken c)); repeat apply Forall_cons_2;
    try apply Forall_nil_2; unfold fetchMe; careful_unfold; keeps_walk.
Qed.

Lemma advance_keeps (I : State -> Prop) (p : Prog unit) :
  keeps I p -> forall w,
  I (state w) -> Forall (fun t => forall o, keeps I (resume t o)) (pending w) ->
  I (state (advance p w))
  /\ Forall (fun t => forall o, keeps I (resume t o)) (pending (advance p w)).
Proof.
  induction 1 as [u | e | f k Hf Hk IH | req k Hk IH | req k Hk IH];
    intros w Hw Hpend; simpl; auto.
  - apply IH; simpl; auto.
  - split; [assumption |]. apply Forall_app. split; [assumption |].
    constructor; [exact Hk | constructor].
  - split; [assumption |]. apply Forall_app. split; [assumption |].
    constructor; [intros o; exact Hk | constructor].
Qed.

Lemma advance_all_keeps (I : State -> Prop) (ps : list (Prog unit)) :
  Forall (keeps I) ps -> forall w,
  I (state w) -> Forall (fun t => forall o, keeps I (resume t o)) (pending w) ->
  I (state (fold_left (fun w' p => advance p w') ps w))
  /\ Forall (fun t => forall o, keeps I (resume t o))
       (pending (fold_left (fun w' p => advance p w') ps w)).
Proof.
  induction 1 as [| p ps Hp _ IH]; intros w Hw Hpend; simpl; [auto |].
  destruct (advance_keeps I p Hp w Hw Hpend) as [Hw' Hpend'].
  apply IH; assumption.
Qed.

Lemma commit_keeps (w : World) :
  formsComplete (state w) ->
  Forall (fun t => forall o, keeps formsComplete (resume t o)) (pending w) ->
  formsComplete (state (commit w))
  /\ Forall (fun t => forall o, keeps formsComplete (resume t o))
       (pending (commit w)).
Proof.
  intros Hw Hpend. unfold commit.
  destruct (strict_eq (authToken (state w)) (seenToken w)); [auto |].
  unfold runEffect.
  apply (advance_all_keeps formsComplete _ (keeps_tokenEffect (state w)));
    assumption.
Qed.

Lemma step_keeps (w : World) (e : Event) :
  formsComplete (state w) ->
  Forall (fun t => forall o, keeps formsComplete (resume t o)) (pending w) ->
  formsComplete (state (step w e))
  /\ Forall (fun t => forall o, keeps formsComplete (resume t o))
       (pending (step w e)).
Proof.
  intros Hw Hpend.
  assert (Hrun : forall p w0,
            keeps formsComplete p -> formsComplete (state w0) ->
            Forall (fun t => forall o, keeps formsComplete (resume t o))
              (pending w0) ->
            formsComplete (state (commit (advance p w0)))
            /\ Forall (fun t => forall o, keeps formsComplete (resume t o))
                 (pending (commit (advance p w0)))).
  { intros p w0 Hp Hw0 Hpend0.
    destruct (advance_keeps formsComplete p Hp w0 Hw0 Hpend0).
    apply commit_keeps; assumption. }
  destruct (step_cases w e) as [-> | [-> | (i & t & o & Hi & _ & ->)]].
  - auto.
  - apply Hrun; [apply keeps_handlerOf | exact Hw | exact Hpend].
  - apply Hrun; simpl.
    + eapply Forall_lookup_1 in Hpend; [| exact Hi]. apply Hpend.
    + exact Hw.
    + apply Forall_delete. exact Hpend.
Qed.

(** Whatever the events, both form buffers hold all their fields: [field]
    never reads a missing one. *)
Lemma forms_always_complete (ls : gmap string string) (es : list Event) :
  formsComplete (state (steps (mount ls) es)).
Proof.
  assert (H : formsComplete (state (mount ls))
              /\ Forall (fun t => forall o, keeps formsComplete (resume t o))
                   (pending (mount ls))).
  { unfold mount, runEffect.
    apply (advance_all_keeps formsComplete _ (keeps_tokenEffect _)).
    - vm_compute. repeat split; eexists; reflexivity.
    - constructor. }
  unfold steps. revert H. generalize (mount ls).
  induction es as [| e es IH]; intros w [Hw Hpend]; simpl; [exact Hw |].
  apply IH. apply step_keeps; assumption.
Qed.

(** * Examples *)

(** Witness of C3: a 401 and a 500 on the list fetch of [signedIn]. *)
Lemma fetchPosts_401_else_generic_witness :
  (localStorage (final (exec (always (reply 401 VNull)) fetchPosts signedIn))
     !! "auth_token" = None
   /\ authToken (final (exec (always (reply 401 VNull)) fetchPosts signedIn))
      = VStr ""
   /\ error (final (exec (always (reply 401 VNull)) fetchPosts signedIn))
      = "Session expired. Please sign in again.")
  /\ (error (final (exec (always (reply 500 VNull)) fetchPosts signedIn))
      = "Failed to fetch posts."
      /\ authToken (final (exec (always (reply 500 VNull)) fetchPosts signedIn))
         = VStr "abc").
Proof.
  split.
  - destruct (proj1 (fetchPosts_401_else_generic (always (reply 401 VNull))
                       signedIn {| status := 401; json := inr VNull |}
                       eq_refl eq_refl) eq_refl)
      as (H1 & H2 & _ & _ & H3).
    auto.
  - destruct (proj2 (fetchPosts_401_else_generic (always (reply 500 VNull))
                       signedIn {| status := 500; json := inr VNull |}
                       eq_refl eq_refl) eq_refl ltac:(discriminate))
      as (H1 & _ & H2 & _).
    auto.
Defined.

(** Witness of C9: the logout request is rejected by the network. *)
Lemma handleLogout_clears_session_witness :
  localStorage
    (final (exec (always (Rejected (ErrorObj "Failed to fetch")))
              handleLogout signedIn)) !! "auth_token" = None
  /\ authToken
       (final (exec (always (Rejected (ErrorObj "Failed to fetch")))
                 handleLogout signedIn)) = VStr "".
Proof.
  destruct (handleLogout_clears_session
              (always (Rejected (ErrorObj "Failed to fetch"))) signedIn
              eq_refl) as (H1 & H2 & _).
  auto.
Defined.


Example sortedPosts_example :
  sortedPosts isoDay [january; march; december] = [march; january; december].
Proof. vm_compute. reflexivity. Qed.


(** Witness of C5: [march] and [december] share the latest update; the
    first of the two is taken. *)
Lemma latestUpdated_first_maximum_witness :
  exists (r : Post) (before after : list Post) (t : Z),
    latestUpdated isoDay [january; march; december] = Some r
    /\ [january; march; december] = before ++ r :: after
    /\ isoDay (updated_at r) = Some t
    /\ Forall (updatedBefore isoDay t) before
    /\ Forall (updatedBy isoDay t) after.
Proof.
  apply (latestUpdated_first_maximum isoDay [january; march; december]).
  repeat constructor; eexists; vm_compute; reflexivity.
Defined.

Example latestUpdated_example :
  latestUpdated isoDay [january; march; december] = Some march.
Proof. vm_compute. reflexivity. Qed.

(** Counterexample to C5 as stated: the first post has no readable
    [updated_at]; it stays the result although [january] carries a date, so
    the result is not a post with the greatest [updated_at].  (Were an
    unreadable date taken as one that no date exceeds, the second list
    would break the claim instead: [undated] comes first among such posts,
    and the result is [march].) *)
Lemma latestUpdated_undated_first :
  latestUpdated isoDay [undated; january] = Some undated
  /\ isoDay (updated_at undated) = None
  /\ isoDay (updated_at january) = Some 1704153600000
  /\ ~ maximalUpdated isoDay [undated; january] undated
  /\ latestUpdated isoDay [january; undated; march] = Some march
  /\ Forall (fun q => date_gt isoDay (updated_at q) (updated_at undated)
                      = false)
       [january; undated; march].
Proof.
  split; [vm_compute; reflexivity |].
  split; [vm_compute; reflexivity |].
  split; [vm_compute; reflexivity |].
  split; [| split; [vm_compute; reflexivity |
                    repeat constructor; vm_compute; reflexivity]].
  intros [_ Hmax].
  destruct (Hmax january 1704153600000) as (t & Ht & _).
  - apply elem_of_cons. right. apply elem_of_cons. left. reflexivity.
  - vm_compute. reflexivity.
  - vm_compute in Ht. discriminate Ht.
Qed.



(** Witness of C7: a declined delete, and a confirmed one answered 204. *)
Lemma handleDelete_confirmation_witness :
  (requests (exec (always (reply 204 VNull))
               (fun c => handleDelete c no (VNum 1))
               (setPosts [january; march] signedIn)) = []
   /\ final (exec (always (reply 204 VNull))
               (fun c => handleDelete c no (VNum 1))
               (setPosts [january; march] signedIn))
      = setPosts [january; march] signedIn)
  /\ (requests (exec (always (reply 204 VNull))
                  (fun c => handleDelete c yes (VNum 1))
                  (setPosts [january; march] signedIn))
      = [deleteRequest (setPosts [january; march] signedIn) (VNum 1)]
      /\ posts (final (exec (always (reply 204 VNull))
                         (fun c => handleDelete c yes (VNum 1))
                         (setPosts [january; march] signedIn)))
         = [march]).
Proof.
  split.
  - apply (proj1 (handleDelete_confirmation (always (reply 204 VNull))
                    (setPosts [january; march] signedIn) no (VNum 1))).
    reflexivity.
  - destruct (proj2 (handleDelete_confirmation (always (reply 204 VNull))
                       (setPosts [january; march] signedIn) yes (VNum 1))
                eq_refl {| status := 204; json := inr VNull |}
                eq_refl eq_refl) as (H1 & _ & H2 & _).
    split; [exact H1 | exact H2].
Defined.

(** Witness of C8: a title of spaces, and a filled form saved and listed. *)
Lemma handleSubmit_validates_then_refetches_witness :
  (requests (exec savedThenListed handleSubmit blank) = []
   /\ error (final (exec savedThenListed handleSubmit blank))
      = "Title and description are required.")
  /\ (form (final (exec savedThenListed handleSubmit drafted)) = emptyForm
      /\ editingId (final (exec savedThenListed handleSubmit drafted)) = VNull
      /\ requests (exec savedThenListed handleSubmit drafted)
         = [submitRequest drafted; listRequest drafted]
      /\ posts (final (exec savedThenListed handleSubmit drafted))
         = [post_of (postJson 9)]).
Proof.
  split.
  - destruct (proj1 (handleSubmit_validates_then_refetches
                       savedThenListed blank))
      as (H1 & H2 & _); [left; vm_compute; reflexivity |].
    split; [exact H1 | exact H2].
  - destruct (proj2 (handleSubmit_validates_then_refetches
                       savedThenListed drafted))
      with (r := {| status := 201; json := inr (postJson 9) |})
      as (H1 & H2 & H3 & H4);
      try (vm_compute; first [reflexivity | discriminate]).
    repeat split; assumption.
Defined.

(** Witness of C2: the payload holds the token under [data.access_token]
    only. *)
Lemma handleAuthSubmit_first_truthy_token_witness :
  authToken
    (final (exec (always (reply 200
                            (VObj [("data",
                                    VObj [("access_token", VStr "t0k")])])))
              handleAuthSubmit signedOut)) = VStr "t0k"
  /\ isAuthed
       (final (exec (always (reply 200
                               (VObj [("data",
                                       VObj [("access_token", VStr "t0k")])])))
                 handleAuthSubmit signedOut)) = true.
Proof.
  apply (proj2 (handleAuthSubmit_first_truthy_token
                  (always (reply 200
                             (VObj [("data",
                                     VObj [("access_token", VStr "t0k")])])))
                  signedOut
                  {| status := 200;
                     json := inr (VObj [("data",
                                         VObj [("access_token",
                                                VStr "t0k")])]) |}
                  eq_refl eq_refl) (VStr "t0k")); reflexivity.
Defined.

(** Counterexample to C2 as stated.  In the first payload [access_token] is
    present, and empty: it is the first field present, yet the token taken
    is the one of [token].  The second payload holds [data.access_token]
    only, with [null]: the sign-in fails with the 'no token returned' error
    and no token is held. *)
Lemma extractToken_skips_present_falsy :
  firstPresent (VObj [("access_token", VStr ""); ("token", VStr "abc")])
    = Some (VStr "")
  /\ extractToken (VObj [("access_token", VStr ""); ("token", VStr "abc")])
     = VStr "abc"
  /\ firstPresent (VObj [("data", VObj [("access_token", VNull)])])
     = Some VNull
  /\ authError
       (final (exec (always (reply 200
                               (VObj [("data",
                                       VObj [("access_token", VNull)])])))
                 handleAuthSubmit signedOut))
     = "No token returned from the API."
  /\ isAuthed
       (final (exec (always (reply 200
                               (VObj [("data",
                                       VObj [("access_token", VNull)])])))
                 handleAuthSubmit signedOut))
     = false.
Proof. repeat split; vm_compute; reflexivity. Qed.


(** The sibling path: with no token held [handleSubmit] sends nothing and
    sets a validation message. *)
Example handleSubmit_signed_out_example :
  exec (always (reply 201 VNull)) handleSubmit
    (setForm (form drafted) signedOut)
  = (inr tt,
     setError "Sign in to create or edit posts."
       (setForm (form drafted) signedOut), []).
Proof. vm_compute. reflexivity. Qed.

(** Witness of C10: a session from the store; the list arrives with its
    body, then the profile with its body; the user logs out and the server
    answers. *)
Lemma signedOut_view_empty_while_fresh_witness :
  posts (state
           (steps (mount stored)
              [Arrives 1 (reply 200 (VArr [postJson 1])); BodyArrives 1;
               Arrives 0 (reply 200 (VObj [])); BodyArrives 0;
               LoggedOut; Arrives 0 (reply 204 VNull)])) = [].
Proof.
  apply (signedOut_view_empty_while_fresh stored).
  - unfold steps. cbn [fold_left].
    repeat (apply reached_step; [| vm_compute; auto]).
    apply reached_mount.
  - vm_compute. reflexivity.
Defined.

(** Counterexample to C10 as stated: the token of the store is refused by
    [/auth/me] (the session is cleared and the list emptied), and then the
    list fetch started at the first render is answered, with its body: the
    token is empty and the cached list is not. *)
Lemma stale_list_response_fills_signed_out_view :
  truthy (authToken
            (state (steps (mount stored)
                      [Arrives 0 (reply 500 VNull);
                       Arrives 0 (reply 200 (VArr [postJson 1]));
                       BodyArrives 0]))) = false
  /\ posts (state (steps (mount stored)
                     [Arrives 0 (reply 500 VNull);
                      Arrives 0 (reply 200 (VArr [postJson 1]));
                      BodyArrives 0]))
     = [post_of (postJson 1)]
  /\ ~ signedOutEmpty
         (state (steps (mount stored)
                   [Arrives 0 (reply 500 VNull);
                    Arrives 0 (reply 200 (VArr [postJson 1]));
                    BodyArrives 0])).
Proof.
  split; [vm_compute; reflexivity |].
  split; [vm_compute; reflexivity |].
  intros H. specialize (H eq_refl). vm_compute in H. discriminate H.
Qed.

(** The proviso of C10 is on the bodies too: here the response of the list
    fetch arrives while the token is held, [/auth/me] is then refused, and
    the body of the list arrives last.  Every response arrived with the
    token held; the body did not, and it fills the list of the signed-out
    view. *)
Example stale_list_body_fills_signed_out_view :
  fresh (mount stored) (Arrives 1 (reply 200 (VArr [postJson 1])))
  /\ fresh (steps (mount stored) [Arrives 1 (reply 200 (VArr [postJson 1]))])
       (Arrives 0 (reply 500 VNull))
  /\ ~ fresh (steps (mount stored)
                [Arrives 1 (reply 200 (VArr [postJson 1]));
                 Arrives 0 (reply 500 VNull)])
        (BodyArrives 0)
  /\ truthy (authToken
               (state (steps (mount stored)
                         [Arrives 1 (reply 200 (VArr [postJson 1]));
                          Arrives 0 (reply 500 VNull);
                          BodyArrives 0]))) = false
  /\ posts (state (steps (mount stored)
                     [Arrives 1 (reply 200 (VArr [postJson 1]));
                      Arrives 0 (reply 500 VNull);
                      BodyArrives 0]))
     = [post_of (postJson 1)].
Proof.
  split; [vm_compute; auto |]. split; [vm_compute; auto |].
  split; [| split; vm_compute; reflexivity].
  set (w := steps (mount stored)
              [Arrives 1 (reply 200 (VArr [postJson 1]));
               Arrives 0 (reply 500 VNull)]).
  assert (Hout : truthy (authToken (state w)) = false)
    by (vm_compute; reflexivity).
  assert (Hlist : match pending w !! 0%nat with
                  | Some t => isListRequest (request t)
                  | None => false
                  end = true) by (vm_compute; reflexivity).
  unfold fresh. destruct (pending w !! 0%nat) as [t |]; [| discriminate Hlist].
  intros H. rewrite (H Hlist) in Hout. discriminate Hout.
Qed.

(** * The rest of the component *)

(** ** Session resolution *)

(** X1: [fetchMe] sends nothing without a token.  With one it sends the one
    request to [/auth/me]; a parsed answer in 200..299 becomes the user and
    the token stays; every other outcome (another status, a rejection, a
    body that does not parse) clears the session and shows no message. *)
Theorem fetchMe_resolves_or_clears (net : nat -> Outcome) (token : value)
    (c : State) :
  (truthy token = false -> run net (fetchMe token) c [] = (inr tt, c, []))
  /\ (truthy token = true ->
      run net (fetchMe token) c [] =
      (inr tt,
       match net 0%nat with
       | Resolved r =>
           if ok r then match json r with
                        | inr data => setAuthUser data c
                        | inl _ => cleared c
                        end
           else cleared c
       | Rejected _ => cleared c
       end,
       [meRequest token])).
Proof.
  unfold fetchMe. split; intros ->; simpl; [reflexivity |].
  destruct (net 0%nat) as [e | r]; simpl; [reflexivity |].
  unfold response_json. destruct (ok r); simpl; [| reflexivity].
  destruct (json r); reflexivity.
Qed.

(** ** List fetch, the other outcomes *)


(** X3: when the list fetch is rejected, or its body does not parse, with
    an error of message [m], the cached list is kept and [m] is shown; the
    session is cleared exactly when [m] holds the words 'Session expired'. *)
Theorem fetchPosts_error_message (net : nat -> Outcome) (c : State)
    (m : string) :
  truthy (authToken c) = true ->
  net 0%nat = Rejected (ErrorObj m)
  \/ (exists r, net 0%nat = Resolved r /\ ok r = true
                /\ json r = inl (ErrorObj m)) ->
  final (exec net fetchPosts c) =
  (if includes "Session expired" m
   then fun s => setIsLoading false (cleared s)
   else setIsLoading false)
    (setError m (setError "" (setIsLoading true c)))
  /\ posts (final (exec net fetchPosts c)) = posts c.
Proof.
  intros Htoken Hnet. unfold exec, fetchPosts. rewrite Htoken. simpl.
  destruct Hnet as [-> | (r & -> & Hok & Hjson)]; simpl.
  - destruct (includes "Session expired" m); simpl; auto.
  - rewrite Hok. simpl. unfold response_json. rewrite Hjson. simpl.
    destruct (includes "Session expired" m); simpl; auto.
Qed.

(** ** Sign-in, the refusals *)

Lemma handleAuthSubmit_sends (net : nat -> Outcome) (c : State) :
  requests (exec net handleAuthSubmit c) = [authRequest c].
Proof.
  unfold exec, handleAuthSubmit. simpl.
  destruct (net 0%nat) as [e | r]; simpl; [reflexivity |].
  destruct (json r) as [e | data]; simpl;
    (destruct (ok r); simpl; [| reflexivity]); [reflexivity |].
  destruct (truthy (extractToken _)); reflexivity.
Qed.

(** X4: a sign-in answered outside 200..299, or rejected, signs nobody in,
    whatever the body holds, a token included: the held token, the store
    and the typed credentials stay as they were, the message of the refusal
    is shown, and the submit indicator is lowered. *)
Theorem handleAuthSubmit_refused (net : nat -> Outcome) (c : State) :
  (forall r, net 0%nat = Resolved r -> ok r = false ->
     final (exec net handleAuthSubmit c) =
     setAuthLoading false
       (setAuthError (to_string (authFailureMessage (payloadOf r)))
          (setAuthError "" (setAuthLoading true c))))
  /\ (forall e, net 0%nat = Rejected e ->
        final (exec net handleAuthSubmit c) =
        setAuthLoading false
          (setAuthError (error_text e)
             (setAuthError "" (setAuthLoading true c)))).
Proof.
  unfold exec, handleAuthSubmit, payloadOf. simpl.
  split; [intros r -> Hok | intros e ->]; simpl; [| reflexivity].
  destruct (json r); simpl; rewrite Hok; reflexivity.
Qed.






(** X6: what is typed reaches the request of the sign-in: the email
    trimmed, the password as typed, to [/register] in register mode and to
    [/login] in every other. *)
Theorem typed_credentials_are_sent (net : nat -> Outcome) (c : State)
    (email password : string) :
  let c' := final (run net (handleAuthChange "email" email;;
                            handleAuthChange "password" password) c []) in
  requests (exec net handleAuthSubmit c') = [authRequest c']
  /\ url (authRequest c')
     = AUTH_URL +:+ (if String.eqb (authMode c) "register"
                      then "/register" else "/login")
  /\ exists b, body (authRequest c') = Some b
               /\ prop "email" b = VStr (trim email)
               /\ prop "password" b = VStr password.
Proof.
  intros c'. split; [apply handleAuthSubmit_sends |].
  subst c'. unfold authRequest, field. simpl.
  set (typed := <["password" := password]>
                  (<["email" := email]> (authForm c))).
  assert (H1 : typed !! "password" = Some password)
    by apply lookup_insert_eq.
  assert (H2 : typed !! "email" = Some email).
  { unfold typed. rewrite lookup_insert_ne by discriminate.
    apply lookup_insert_eq. }
  rewrite !H1, !H2. simpl.
  destruct (String.eqb (authMode c) "register"); split; try reflexivity;
    eexists; split; try reflexivity; split; reflexivity.
Qed.

(** ** Post form, the other paths *)

Lemma handleSubmit_first_request (net : nat -> Outcome) (c : State) :
  trim (field (form c) "title") <> "" ->
  trim (field (form c) "description") <> "" ->
  truthy (authToken c) = true ->
  hd_error (requests (exec net handleSubmit c)) = Some (submitRequest c).
Proof.
  intros Ht Hd Htoken. unfold exec, handleSubmit.
  apply String.eqb_neq in Ht, Hd. rewrite Ht, Hd, Htoken. simpl.
  destruct (net 0%nat) as [e | r]; simpl; [reflexivity |].
  destruct (ok r); simpl; [| reflexivity].
  unfold fetchPosts. rewrite Htoken. simpl.
  destruct (net 1%nat) as [e | r1]; simpl.
  - destruct e as [m |]; simpl; [destruct (includes _ m) |]; reflexivity.
  - unfold response_json. destruct (ok r1); simpl.
    + destruct (json r1) as [e | data]; simpl; [| reflexivity].
      destruct e as [m |]; simpl; [destruct (includes _ m) |]; reflexivity.
    + destruct (status r1 =? 401); reflexivity.
Qed.

(** X7: a submit after [handleEdit] of a post with a text title and a text
    description updates that post: the first request is a PUT to the URL of
    its [id], with the trimmed title and description and the bearer.  For a
    post whose [id] is [null] the component is not editing, and the request
    is the POST of a creation. *)
Theorem edit_then_submit (net : nat -> Outcome) (c : State) (post : Post)
    (t d : string) :
  truthy (authToken c) = true ->
  title post = VStr t -> description post = VStr d ->
  trim t <> "" -> trim d <> "" ->
  hd_error
    (requests (exec net handleSubmit
                 (final (run net (handleEdit post) c []))))
  = Some {| url := if strict_eq (id post) VNull then POSTS_URL
                   else POSTS_URL +:+ "/" +:+ to_string (id post);
            method := if strict_eq (id post) VNull then "POST" else "PUT";
            headers := [("Content-Type", "application/json");
                        bearer (authToken c)];
            body := Some (VObj [("title", VStr (trim t));
                                ("description", VStr (trim d))]) |}.
Proof.
  intros Htoken Htitle Hdesc Ht Hd.
  set (c' := final (run net (handleEdit post) c [])).
  assert (Hft : field (form c') "title" = t).
  { unfold c', field. simpl. rewrite lookup_insert_eq, Htitle. reflexivity. }
  assert (Hfd : field (form c') "description" = d).
  { unfold c', field. simpl. rewrite lookup_insert_ne by discriminate.
    rewrite lookup_insert_eq, Hdesc. reflexivity. }
  rewrite handleSubmit_first_request;
    [| rewrite Hft; exact Ht | rewrite Hfd; exact Hd | exact Htoken].
  unfold submitRequest. rewrite Hft, Hfd. unfold isEditing. simpl.
  destruct (strict_eq (id post) VNull); reflexivity.
Qed.

(** X8: cancelling undoes an edit: after [handleEdit] and then
    [handleCancelEdit] the form is empty and nothing is edited, nothing was
    sent, and a state that was not editing with an empty form is back as it
    was. *)
Theorem edit_then_cancel (net : nat -> Outcome) (c : State) (post : Post) :
  run net (handleEdit post;; handleCancelEdit) c []
  = (inr tt, setEditingId VNull (setForm emptyForm c), [])
  /\ (form c = emptyForm -> editingId c = VNull ->
      final (run net (handleEdit post;; handleCancelEdit) c []) = c).
Proof.
  split; [reflexivity |].
  intros Hform Hid. destruct c. simpl in *. subst. reflexivity.
Qed.

(** X9: a save answered outside 200..299, or rejected, loses nothing of
    what was typed: the form buffer, the editing id and the cached list stay
    as they were, the list is not fetched, the failure is shown ('Failed to
    update post.' when editing, 'Failed to create post.' when not, or the
    message of the rejection) and the saving indicator is lowered. *)
Theorem handleSubmit_failed (net : nat -> Outcome) (c : State) :
  trim (field (form c) "title") <> "" ->
  trim (field (form c) "description") <> "" ->
  truthy (authToken c) = true ->
  (forall r, net 0%nat = Resolved r -> ok r = false ->
     exec net handleSubmit c =
     (inr tt,
      setIsSaving false
        (setError (if isEditing c then "Failed to update post."
                   else "Failed to create post.")
           (setError "" (setIsSaving true c))),
      [submitRequest c]))
  /\ (forall e, net 0%nat = Rejected e ->
        exec net handleSubmit c =
        (inr tt,
         setIsSaving false
           (setError (error_text e) (setError "" (setIsSaving true c))),
         [submitRequest c])).
Proof.
  intros Ht Hd Htoken. unfold exec, handleSubmit.
  apply String.eqb_neq in Ht, Hd. rewrite Ht, Hd, Htoken. simpl.
  split; [intros r -> Hok | intros e ->]; simpl; [| reflexivity].
  rewrite Hok. simpl. destruct (isEditing c); reflexivity.
Qed.

(** ** Delete, the other paths *)

(** X10: a confirmed delete answered outside 200..299, or rejected, removes
    nothing: the cached list stays as it was, the failure is shown, the
    deleting indicator is lowered, and the one DELETE request was sent. *)
Theorem handleDelete_failed (net : nat -> Outcome) (c : State)
    (confirm : string -> bool) (postId : value) :
  confirm confirmPrompt = true ->
  (forall r, net 0%nat = Resolved r -> ok r = false ->
     exec net (fun c => handleDelete c confirm postId) c =
     (inr tt,
      setDeletingId VNull
        (setError "Failed to delete post."
           (setError "" (setDeletingId postId c))),
      [deleteRequest c postId]))
  /\ (forall e, net 0%nat = Rejected e ->
        exec net (fun c => handleDelete c confirm postId) c =
        (inr tt,
         setDeletingId VNull
           (setError (error_text e) (setError "" (setDeletingId postId c))),
         [deleteRequest c postId])).
Proof.
  intros Hyes. unfold exec, handleDelete. fold confirmPrompt. rewrite Hyes.
  simpl. split; [intros r -> Hok | intros e ->]; simpl; [| reflexivity].
  rewrite Hok. reflexivity.
Qed.

Lemma withoutPost_idempotent (postId : value) (l : list Post) :
  withoutPost postId (withoutPost postId l) = withoutPost postId l.
Proof.
  unfold withoutPost. induction l as [| p l IH]; simpl; [reflexivity |].
  destruct (negb (strict_eq (id p) postId)) eqn:Hp; simpl;
    [rewrite Hp, IH |]; auto.
Qed.

Lemma withoutPost_sublist (postId : value) (l : list Post) :
  withoutPost postId l `sublist_of` l.
Proof.
  unfold withoutPost. induction l as [| p l IH]; simpl; [constructor |].
  destruct (negb (strict_eq (id p) postId)); constructor; exact IH.
Qed.

(** X11: deleting is idempotent and only removes: after a successful delete
    the cached list is a sublist of the former one (same posts, same order,
    none added), and a second successful delete of the same id changes
    nothing in it. *)
Theorem handleDelete_twice (net net' : nat -> Outcome) (c : State)
    (confirm : string -> bool) (postId : value) (r r' : Response) :
  confirm confirmPrompt = true ->
  net 0%nat = Resolved r -> ok r = true ->
  net' 0%nat = Resolved r' -> ok r' = true ->
  let c1 := final (exec net (fun c => handleDelete c confirm postId) c) in
  let c2 := final (exec net' (fun c => handleDelete c confirm postId) c1) in
  posts c1 `sublist_of` posts c /\ posts c2 = posts c1.
Proof.
  intros Hyes Hnet Hok Hnet' Hok' c1 c2. subst c2 c1.
  rewrite (handleDelete_done net' _ confirm postId r' Hyes Hnet' Hok').
  rewrite (handleDelete_done net c confirm postId r Hyes Hnet Hok).
  simpl. split; [apply withoutPost_sublist | apply withoutPost_idempotent].
Qed.

(** ** Derived view state, without conditions on the dates *)

Lemma StronglySorted_mono_in {A : Type} (R R' : A -> A -> Prop)
    (l : list A) :
  (forall a b, a ∈ l -> b ∈ l -> R a b -> R' a b) ->
  StronglySorted R l -> StronglySorted R' l.
Proof.
  intros Hmono Hs. induction Hs as [| x l Hs IH Hx]; constructor.
  - apply IH. intros a b Ha Hb. apply Hmono; apply elem_of_cons; auto.
  - apply Forall_forall. intros y Hy. rewrite Forall_forall in Hx.
    apply Hmono; [apply elem_of_cons; auto | apply elem_of_cons; auto |].
    apply Hx. exact Hy.
Qed.

Section ViewMore.
Variable dateTime : value -> option Z.
Variable dateFormat : Z -> string.

(** X12: when every [created_at] reads as a date, equal dates allowed, no
    post is listed above a post created later; and whatever the dates, the
    listed posts are the cached ones, as many. *)
Theorem sortedPosts_never_above_newer (posts : list Post) :
  length (sortedPosts dateTime posts) = length posts
  /\ (Forall (fun p => is_Some (dateTime (created_at p))) posts ->
      StronglySorted
        (fun a b => date_gt dateTime (created_at b) (created_at a) = false)
        (sortedPosts dateTime posts)).
Proof.
  pose proof (sortedPosts_perm dateTime posts) as Hperm. split.
  - rewrite Hperm. reflexivity.
  - intros Hdates.
    apply (StronglySorted_mono_in (desc (createdStamp dateTime))).
    + intros a b Ha Hb Hdesc. rewrite Hperm in Ha, Hb.
      rewrite Forall_forall in Hdates.
      destruct (Hdates a Ha) as [ta Hta], (Hdates b Hb) as [tb Htb].
      unfold desc, createdStamp in Hdesc. unfold date_gt.
      rewrite Hta, Htb in *. simpl in Hdesc. apply Z.ltb_ge. exact Hdesc.
    + apply (array_sort_sorted _ (createdStamp dateTime)
               (fun p => is_Some (dateTime (created_at p)))).
      * intros a b. apply byCreatedDesc_stamp.
      * exact Hdates.
Qed.

Lemma fold_later_some (l : list Post) (best : Post) :
  exists r, fold_left (later dateTime) l (Some best) = Some r
            /\ r ∈ best :: l.
Proof.
  revert best. induction l as [| q l IH]; intros best; simpl.
  - exists best. split; [reflexivity | apply elem_of_cons; auto].
  - destruct (date_gt dateTime (updated_at q) (updated_at best)).
    + destruct (IH q) as (r & Hr & Hin). exists r. split; [exact Hr |].
      apply elem_of_cons. right. exact Hin.
    + destruct (IH best) as (r & Hr & Hin). exists r. split; [exact Hr |].
      apply elem_of_cons in Hin as [-> | Hin]; apply elem_of_cons; auto.
      right. apply elem_of_cons. auto.
Qed.

Lemma fold_later_undated (l : list Post) (best : Post) :
  dateTime (updated_at best) = None ->
  fold_left (later dateTime) l (Some best) = Some best.
Proof.
  intros Hbest. induction l as [| q l IH]; simpl; [reflexivity |].
  unfold date_gt. rewrite Hbest.
  destruct (dateTime (updated_at q)); exact IH.
Qed.

Lemma fold_later_max (l : list Post) :
  forall (best : Post) (t : Z),
    dateTime (updated_at best) = Some t ->
    exists (r : Post) (t' : Z),
      fold_left (later dateTime) l (Some best) = Some r
      /\ dateTime (updated_at r) = Some t' /\ t <= t'
      /\ forall q tq, q ∈ l -> dateTime (updated_at q) = Some tq -> tq <= t'.
Proof.
  induction l as [| q l IH]; intros best t Ht; simpl.
  - exists best, t. repeat split; [exact Ht | lia |].
    intros q tq Hq. apply elem_of_nil in Hq. destruct Hq.
  - unfold date_gt. rewrite Ht.
    destruct (dateTime (updated_at q)) as [tq |] eqn:Hq.
    + destruct (Z.ltb_spec t tq) as [Hlt | Hge].
      * destruct (IH q tq Hq) as (r & t' & Hr & Htr & Hle & Hmax).
        exists r, t'. repeat split; [exact Hr | exact Htr | lia |].
        intros x tx Hx Htx. apply elem_of_cons in Hx as [-> | Hx];
          [| eapply Hmax; eassumption].
        rewrite Hq in Htx. injection Htx as <-. exact Hle.
      * destruct (IH best t Ht) as (r & t' & Hr & Htr & Hle & Hmax).
        exists r, t'. repeat split; [exact Hr | exact Htr | exact Hle |].
        intros x tx Hx Htx. apply elem_of_cons in Hx as [-> | Hx];
          [| eapply Hmax; eassumption].
        rewrite Hq in Htx. injection Htx as <-. lia.
    + destruct (IH best t Ht) as (r & t' & Hr & Htr & Hle & Hmax).
      exists r, t'. repeat split; [exact Hr | exact Htr | exact Hle |].
      intros x tx Hx Htx. apply elem_of_cons in Hx as [-> | Hx];
        [| eapply Hmax; eassumption].
      rewrite Hq in Htx. discriminate Htx.
Qed.

(** X13: whatever the dates, 'last updated' is [null] exactly for the empty
    list, and otherwise a post of the list. *)
Theorem latestUpdated_is_a_post (posts : list Post) :
  (latestUpdated dateTime posts = None <-> posts = [])
  /\ forall r, latestUpdated dateTime posts = Some r -> r ∈ posts.
Proof.
  destruct posts as [| p l].
  - split; [split; reflexivity | discriminate].
  - rewrite latestUpdated_cons.
    destruct (fold_later_some l p) as (r & Hr & Hin). rewrite Hr.
    split; [split; discriminate |].
    intros r' Hr'. injection Hr' as <-. exact Hin.
Qed.

(** X14: posts whose [updated_at] does not read as a date.  When the first
    post is one, it is 'last updated', whatever follows.  When the first
    post has a date, the undated posts are passed over: the result has a
    date, and no dated post of the list was updated later. *)
Theorem latestUpdated_undated_posts (p : Post) (l : list Post) :
  (dateTime (updated_at p) = None ->
   latestUpdated dateTime (p :: l) = Some p)
  /\ (is_Some (dateTime (updated_at p)) ->
      exists r, latestUpdated dateTime (p :: l) = Some r
                /\ maximalUpdated dateTime (p :: l) r).
Proof.
  rewrite latestUpdated_cons. split.
  - apply fold_later_undated.
  - intros [t Ht].
    destruct (fold_later_max l p t Ht) as (r & t' & Hr & Htr & Hle & Hmax).
    exists r. split; [exact Hr |]. split.
    + destruct (fold_later_some l p) as (r' & Hr' & Hin).
      rewrite Hr in Hr'. injection Hr' as <-. exact Hin.
    + intros q tq Hq Htq. exists t'. split; [exact Htr |].
      apply elem_of_cons in Hq as [-> | Hq]; [| eapply Hmax; eassumption].
      rewrite Ht in Htq. injection Htq as <-. exact Hle.
Qed.

(** X15: the 'Last updated' figure is ["-"] for the empty list; when every
    [updated_at] is a non-empty value that reads as a date, it is the
    formatted greatest of these dates. *)
Theorem lastUpdatedLabel_shows_maximum (posts : list Post) :
  lastUpdatedLabel dateTime dateFormat [] = VStr "-"
  /\ (posts <> [] ->
      Forall (fun p => is_Some (dateTime (updated_at p))
                       /\ truthy (updated_at p) = true) posts ->
      exists (r : Post) (t : Z),
        r ∈ posts /\ dateTime (updated_at r) = Some t
        /\ Forall (updatedBy dateTime t) posts
        /\ lastUpdatedLabel dateTime dateFormat posts
           = VStr (dateFormat t)).
Proof.
  split; [reflexivity |]. intros Hne Hall.
  destruct posts as [| p l]; [congruence |].
  pose proof Hall as Hall'. apply Forall_cons in Hall' as [[[t Ht] _] _].
  destruct (fold_later_max l p t Ht) as (r & t' & Hr & Htr & Hle & Hmax).
  destruct (fold_later_some l p) as (r' & Hr' & Hin).
  rewrite Hr in Hr'. injection Hr' as <-.
  exists r, t'. split; [exact Hin |]. split; [exact Htr |]. split.
  - apply Forall_forall. intros q Hq.
    rewrite Forall_forall in Hall. destruct (Hall q Hq) as [[tq Htq] _].
    exists tq. split; [exact Htq |].
    apply elem_of_cons in Hq as [-> | Hq]; [| eapply Hmax; eassumption].
    rewrite Ht in Htq. injection Htq as <-. exact Hle.
  - unfold lastUpdatedLabel. rewrite latestUpdated_cons, Hr.
    rewrite Forall_forall in Hall. destruct (Hall r Hin) as [_ Htruthy].
    rewrite Htruthy. unfold formatDate. rewrite Htruthy, Htr. reflexivity.
Qed.

(** X16: the list panel shows the loading notice while loading; once
    loaded, the empty notice exactly when the cached list is empty, and
    otherwise cards that are the cached posts, none lost and none added. *)
Theorem listPanel_shows (s : State) :
  (isLoading s = true -> listPanel dateTime s = LoadingPosts)
  /\ (isLoading s = false ->
      (listPanel dateTime s = NoPostsYet <-> posts s = [])
      /\ forall l, listPanel dateTime s = Cards l ->
           l <> [] /\ l ≡ₚ posts s).
Proof.
  unfold listPanel. split; intros ->; [reflexivity |].
  pose proof (sortedPosts_perm dateTime (posts s)) as Hperm.
  destruct (sortedPosts dateTime (posts s)) as [| p l'] eqn:Hsorted; simpl.
  - apply Permutation_nil in Hperm.
    split; [split; auto | discriminate].
  - split.
    + split; [discriminate |]. intros Hnil. rewrite Hnil in Hperm.
      symmetry in Hperm. apply Permutation_nil in Hperm.
      discriminate Hperm.
    + intros l Hl. injection Hl as <-. split; [discriminate | exact Hperm].
Qed.

End ViewMore.

(** ** Invariants of the event loop *)

Lemma advance_settle (p : Prog unit) (w : World) :
  advance p w =
  {| state := settle p (state w);
     pending := pending w ++ option_list (next p);
     sent := sent w ++ from_option issued [] (next p);
     seenToken := seenToken w |}.
Proof.
  revert w. induction p as [u | e | f k IH | req k _ | req k _]; intros w;
    simpl.
  - destruct w. simpl. rewrite !app_nil_r. reflexivity.
  - destruct w. simpl. rewrite !app_nil_r. reflexivity.
  - rewrite IH. reflexivity.
  - reflexivity.
  - rewrite app_nil_r. reflexivity.
Qed.

Section StableInvariant.
Variable I : State -> Prop.
Hypothesis handlers_stable : forall c e, stable I (handlerOf c e).
Hypothesis effect_stable : forall c, Forall (stable I) (tokenEffect c).

Lemma advance_stable (p : Prog unit) (w : World) :
  stable I p -> stableWorld I w -> stableWorld I (advance p w).
Proof.
  intros Hp [Hw Hpend]. rewrite advance_settle.
  destruct Hp as [p Hsettle Hnext]. split; simpl; [auto |].
  apply Forall_app. split; [exact Hpend |].
  destruct (next p) as [t |]; simpl; [| constructor].
  constructor; [| constructor]. apply Hnext. reflexivity.
Qed.

Lemma runEffect_stable (w : World) : stableWorld I w -> stableWorld I (runEffect w).
Proof.
  intros Hw. unfold runEffect.
  set (w0 := {| state := state w; pending := pending w; sent := sent w;
                seenToken := authToken (state w) |}).
  assert (Hw0 : stableWorld I w0) by exact Hw.
  generalize (effect_stable (state w)). revert Hw0. generalize w0.
  induction (tokenEffect (state w)) as [| p ps IH]; intros w1 Hw1 Hps; simpl;
    [exact Hw1 |].
  apply Forall_cons in Hps as [Hp Hps].
  apply IH; [apply advance_stable; assumption | exact Hps].
Qed.

Lemma step_stable (w : World) (e : Event) :
  stableWorld I w -> stableWorld I (step w e).
Proof.
  intros Hw.
  assert (Hcommit : forall w0, stableWorld I w0 -> stableWorld I (commit w0)).
  { intros w0 Hw0. unfold commit.
    destruct (strict_eq _ _); [exact Hw0 | apply runEffect_stable, Hw0]. }
  destruct (step_cases w e) as [-> | [-> | (i & t & o & Hi & _ & ->)]].
  - exact Hw.
  - apply Hcommit, advance_stable; [apply handlers_stable | exact Hw].
  - destruct Hw as [Hs Hpend].
    apply Hcommit, advance_stable.
    + eapply Forall_lookup_1 in Hpend; [| exact Hi]. apply Hpend.
    + split; simpl; [exact Hs | apply Forall_delete, Hpend].
Qed.

Lemma stable_always (ls : gmap string string) (es : list Event) :
  I (initialState ls) -> I (state (steps (mount ls) es)).
Proof.
  intros Hinit.
  assert (H : stableWorld I (mount ls)).
  { apply runEffect_stable. split; [exact Hinit | constructor]. }
  unfold steps. revert H. generalize (mount ls).
  induction es as [| e es IH]; intros w Hw; simpl; [apply Hw |].
  apply IH, step_stable, Hw.
Qed.

End StableInvariant.

(** Walks the tree of a handler for a [stable] goal; [side] proves that
    one stretch keeps the invariant. *)
Ltac stable_walk side :=
  repeat (simpl; match goal with
    | |- stable _ ?p =>
        match p with
        | context [match ?x with _ => _ end] => destruct x eqn:?
        end
    | |- stable _ _ =>
        apply stable_intro;
        [ let s := fresh "s" in
          let Hs := fresh "Hs" in
          intros s Hs; simpl; side Hs
        | let t := fresh "t" in
          let Hn := fresh "Hn" in
          let o := fresh "o" in
          simpl; intros t Hn;
          first [ discriminate Hn
                | injection Hn as <-; simpl; intros o ] ]
    end).

Ltac handlers_unfold :=
  unfold handlerOf, tokenEffect, handleChange, handleAuthChange, handleAuthMode,
    handleAuthSubmit, handleLogout, handleSubmit, handleEdit, handleCancelEdit,
    handleDelete, fetchMe, fetchPosts, fetchPosts_catch, resetForm, clearAuth,
    response_json, throw_when, fetch, set.

Ltac persisted_side Hs :=
  unfold persistedIsHeld, storedToken in *; simpl;
  first [ exact Hs
        | rewrite lookup_insert_eq; reflexivity
        | rewrite lookup_delete_eq; reflexivity ].

Lemma persisted_handlers (c : State) (e : Event) :
  stable persistedIsHeld (handlerOf c e).
Proof. destruct e; handlers_unfold; stable_walk persisted_side. Qed.

Lemma persisted_effect (c : State) :
  Forall (stable persistedIsHeld) (tokenEffect c).
Proof.
  unfold tokenEffect.
  destruct (truthy (authToken c)); repeat apply Forall_cons_2;
    try apply Forall_nil_2; handlers_unfold; stable_walk persisted_side.
Qed.

(** X17: whatever the events and the order of the responses, after every
    event the stored token is the held one: a reload of the page starts
    with the token the component holds, and signed out when it holds
    none. *)
Theorem stored_token_is_held (ls : gmap string string) (es : list Event) :
  authToken (initialState (localStorage (state (steps (mount ls) es))))
  = VStr (to_string (authToken (state (steps (mount ls) es)))).
Proof.
  apply (stable_always persistedIsHeld persisted_handlers persisted_effect).
  unfold persistedIsHeld, storedToken. reflexivity.
Qed.

Lemma elem_of_delete_or {A : Type} (l : list A) (i : nat) (x t0 : A) :
  l !! i = Some t0 -> x ∈ l -> x ∈ delete i l \/ x = t0.
Proof.
  revert i. induction l as [| y l IH]; intros [| i] Hi Hx; simpl in *;
    try discriminate.
  - injection Hi as ->. apply elem_of_cons in Hx as [-> | Hx]; auto.
  - apply elem_of_cons in Hx as [-> | Hx].
    + left. apply elem_of_cons. auto.
    + destruct (IH i Hi Hx) as [H | H]; [left | right; exact H].
      apply elem_of_cons. auto.
Qed.

Section TidyInvariant.
Variable F : State -> bool.
Hypothesis handlers_tidy : forall c e, tidy F (handlerOf c e).
Hypothesis effect_tidy : forall c, Forall (tidy F) (tokenEffect c).

Lemma advance_tidy (p : Prog unit) (w : World) :
  tidy F p ->
  Forall (fun t => forall o, tidy F (resume t o)) (pending w) ->
  (F (state w) = true ->
   (exists t, t ∈ pending w /\ forall o, lowers F (resume t o))
   \/ lowers F p) ->
  tidyWorld F (advance p w).
Proof.
  intros Hp Hpend Hup. rewrite advance_settle.
  destruct Hp as [p Hsettle Hnext]. split; simpl.
  - intros Hstill.
    destruct (Hsettle (state w) Hstill) as [Hwas | (t & Ht & Hlow)].
    + destruct (Hup Hwas) as [(t & Hin & Hlow) | Hlow].
      * exists t. split; [apply elem_of_app; auto | exact Hlow].
      * destruct Hlow as [p Hend Hcont].
        destruct (next p) as [t |] eqn:Hn.
        -- exists t. split; [| apply Hcont; reflexivity].
           apply elem_of_app. right. apply elem_of_cons. auto.
        -- rewrite Hend in Hstill by reflexivity. discriminate Hstill.
    + exists t. split; [| exact Hlow]. rewrite Ht.
      apply elem_of_app. right. apply elem_of_cons. auto.
  - apply Forall_app. split; [exact Hpend |].
    destruct (next p) as [t |]; simpl; [| constructor].
    constructor; [| constructor]. apply Hnext. reflexivity.
Qed.

Lemma runEffect_tidy (w : World) : tidyWorld F w -> tidyWorld F (runEffect w).
Proof.
  intros Hw. unfold runEffect.
  set (w0 := {| state := state w; pending := pending w; sent := sent w;
                seenToken := authToken (state w) |}).
  assert (Hw0 : tidyWorld F w0) by exact Hw.
  generalize (effect_tidy (state w)). revert Hw0. generalize w0.
  induction (tokenEffect (state w)) as [| p ps IH]; intros w1 Hw1 Hps; simpl;
    [exact Hw1 |].
  apply Forall_cons in Hps as [Hp Hps]. destruct Hw1 as [Hup Hpend].
  apply IH; [apply advance_tidy; auto | exact Hps].
Qed.

Lemma step_tidy (w : World) (e : Event) :
  tidyWorld F w -> tidyWorld F (step w e).
Proof.
  intros Hw.
  assert (Hcommit : forall w0, tidyWorld F w0 -> tidyWorld F (commit w0)).
  { intros w0 Hw0. unfold commit.
    destruct (strict_eq _ _); [exact Hw0 | apply runEffect_tidy, Hw0]. }
  destruct Hw as [Hup Hpend].
  destruct (step_cases w e) as [-> | [-> | (i & t0 & o & Hi & _ & ->)]].
  - split; assumption.
  - apply Hcommit, advance_tidy;
      [apply handlers_tidy | exact Hpend | auto].
  - apply Hcommit, advance_tidy; simpl.
    + eapply Forall_lookup_1 in Hpend; [| exact Hi]. apply Hpend.
    + apply Forall_delete, Hpend.
    + intros Hwas. destruct (Hup Hwas) as (t & Hin & Hlow).
      destruct (elem_of_delete_or _ i t t0 Hi Hin) as [Hin' | ->].
      * left. exists t. auto.
      * right. apply Hlow.
Qed.

Lemma tidy_always (ls : gmap string string) (es : list Event) :
  tidyWorld F (mount ls) -> tidyWorld F (steps (mount ls) es).
Proof.
  unfold steps. generalize (mount ls).
  induction es as [| e es IH]; intros w Hw; simpl; [exact Hw |].
  apply IH, step_tidy, Hw.
Qed.

Lemma tidy_quiet (w : World) :
  tidyWorld F w -> pending w = [] -> F (state w) = false.
Proof.
  intros [Hup _] Hnone. destruct (F (state w)); [| reflexivity].
  destruct (Hup eq_refl) as (t & Hin & _). rewrite Hnone in Hin.
  apply elem_of_nil in Hin. destruct Hin.
Qed.

End TidyInvariant.

Ltac lowers_walk :=
  repeat (simpl; match goal with
    | |- lowers _ ?p =>
        match p with
        | context [match ?x with _ => _ end] => destruct x eqn:?
        end
    | |- lowers _ _ =>
        apply lowers_intro;
        [ let Hn := fresh "Hn" in
          let s := fresh "s" in
          simpl; intros Hn s; first [discriminate Hn | reflexivity]
        | let t := fresh "t" in
          let Hn := fresh "Hn" in
          let o := fresh "o" in
          simpl; intros t Hn;
          first [ discriminate Hn
                | injection Hn as <-; simpl; intros o ] ]
    end).

Ltac tidy_side H :=
  first [ discriminate H
        | left; exact H
        | right; eexists; split;
          [ reflexivity
          | let o := fresh "o" in simpl; intros o; solve [lowers_walk] ] ].

Ltac tidy_walk :=
  repeat (simpl; match goal with
    | |- tidy _ ?p =>
        match p with
        | context [match ?x with _ => _ end] => destruct x eqn:?
        end
    | |- tidy _ _ =>
        apply tidy_intro;
        [ let s := fresh "s" in
          let H := fresh "H" in
          simpl; intros s H; tidy_side H
        | let t := fresh "t" in
          let Hn := fresh "Hn" in
          let o := fresh "o" in
          simpl; intros t Hn;
          first [ discriminate Hn
                | injection Hn as <-; simpl; intros o ] ]
    end).

Lemma saving_handlers (c : State) (e : Event) : tidy isSaving (handlerOf c e).
Proof. destruct e; handlers_unfold; tidy_walk. Qed.

Lemma authLoading_handlers (c : State) (e : Event) :
  tidy authLoading (handlerOf c e).
Proof. destruct e; handlers_unfold; tidy_walk. Qed.

Lemma deleting_handlers (c : State) (e : Event) :
  tidy deleting (handlerOf c e).
Proof. destruct e; handlers_unfold; unfold deleting; tidy_walk. Qed.

Lemma isLoading_handlers (c : State) (e : Event) :
  tidy isLoading (handlerOf c e).
Proof. destruct e; handlers_unfold; tidy_walk. Qed.

Ltac effect_tidy_tac :=
  unfold tokenEffect;
  match goal with
  | |- context [truthy ?x] => destruct (truthy x) eqn:?
  end;
  repeat apply Forall_cons_2; try apply Forall_nil_2;
  handlers_unfold; unfold deleting; tidy_walk.

Lemma saving_effect (c : State) : Forall (tidy isSaving) (tokenEffect c).
Proof. effect_tidy_tac. Qed.

Lemma authLoading_effect (c : State) :
  Forall (tidy authLoading) (tokenEffect c).
Proof. effect_tidy_tac. Qed.

Lemma deleting_effect (c : State) : Forall (tidy deleting) (tokenEffect c).
Proof. effect_tidy_tac. Qed.

Lemma isLoading_effect (c : State) : Forall (tidy isLoading) (tokenEffect c).
Proof. effect_tidy_tac. Qed.

(** At the first render the three indicators of the handlers are down. *)
Lemma mount_tidy (F : State -> bool) (ls : gmap string string) :
  (forall c, Forall (tidy F) (tokenEffect c)) ->
  F (initialState ls) = false -> tidyWorld F (mount ls).
Proof.
  intros Heffect Hdown. apply runEffect_tidy; [exact Heffect |].
  split; simpl; [rewrite Hdown; discriminate | constructor].
Qed.

Lemma fetchPosts_lowers_isLoading (c : State) :
  truthy (authToken c) = true -> lowers isLoading (fetchPosts c).
Proof. intros Htoken. handlers_unfold. rewrite Htoken. lowers_walk. Qed.

(** The loading indicator starts up; the effect of the first render lowers
    it, or starts the list fetch that will. *)
Lemma mount_tidy_isLoading (ls : gmap string string) :
  tidyWorld isLoading (mount ls).
Proof.
  pose proof (isLoading_effect (initialState ls)) as Heffect.
  unfold mount, runEffect. simpl state. simpl pending. simpl sent.
  unfold tokenEffect in *.
  destruct (truthy (authToken (initialState ls))) eqn:Htoken.
  - apply Forall_cons in Heffect as [Hme Hlist].
    apply Forall_cons in Hlist as [Hlist _].
    simpl fold_left.
    apply advance_tidy; [exact Hlist | |].
    + rewrite advance_settle. simpl pending.
      inversion Hme as [p _ Hnext Hp].
      change (storedToken ls) with (authToken (initialState ls)).
      destruct (next (fetchMe (authToken (initialState ls)))) as [t |];
        simpl; [| constructor].
      constructor; [| constructor]. apply Hnext. reflexivity.
    + intros _. right. apply fetchPosts_lowers_isLoading. exact Htoken.
  - simpl. split; simpl; [discriminate | constructor].
Qed.

(** X18: whatever the events and the order of the responses, once no
    request is pending no indicator is left up: the list is not loading,
    nothing is being saved or deleted, and no sign-in or sign-out is in
    progress. *)
Theorem quiet_means_idle (ls : gmap string string) (es : list Event) :
  pending (steps (mount ls) es) = [] ->
  busy (state (steps (mount ls) es)) = false.
Proof.
  intros Hquiet. unfold busy.
  rewrite (tidy_quiet isLoading _
             (tidy_always isLoading isLoading_handlers isLoading_effect
                ls es (mount_tidy_isLoading ls)) Hquiet).
  rewrite (tidy_quiet isSaving _
             (tidy_always isSaving saving_handlers saving_effect ls es
                (mount_tidy isSaving ls saving_effect eq_refl)) Hquiet).
  rewrite (tidy_quiet authLoading _
             (tidy_always authLoading authLoading_handlers
                authLoading_effect ls es
                (mount_tidy authLoading ls authLoading_effect eq_refl))
             Hquiet).
  rewrite (tidy_quiet deleting _
             (tidy_always deleting deleting_handlers deleting_effect ls es
                (mount_tidy deleting ls deleting_effect eq_refl)) Hquiet).
  reflexivity.
Qed.

(** X19: whatever the events and the order of the responses, both form
    buffers hold all their fields, so reading and trimming a field never
    meets a missing one. *)
Theorem form_fields_always_present (ls : gmap string string)
    (es : list Event) :
  let s := state (steps (mount ls) es) in
  is_Some (form s !! "title") /\ is_Some (form s !! "description")
  /\ is_Some (authForm s !! "name") /\ is_Some (authForm s !! "email")
  /\ is_Some (authForm s !! "password")
  /\ is_Some (authForm s !! "passwordConfirmation").
Proof. exact (forms_always_complete ls es). Qed.

(** ** The effect on the token *)

(** X20: the first render.  With a non-empty token in the store, the
    profile and the list are requested at once, in this order and with this
    token, and the list is loading; without one nothing is sent and nothing
    is loading.  The cached list is empty either way. *)
Theorem mount_requests (ls : gmap string string) :
  posts (state (mount ls)) = []
  /\ (truthy (storedToken ls) = true ->
      sent (mount ls)
      = [meRequest (storedToken ls); listRequest (initialState ls)]
      /\ map request (pending (mount ls)) = sent (mount ls)
      /\ isLoading (state (mount ls)) = true)
  /\ (truthy (storedToken ls) = false ->
      sent (mount ls) = [] /\ pending (mount ls) = []
      /\ isLoading (state (mount ls)) = false).
Proof.
  unfold mount, runEffect, tokenEffect, fetchMe, fetchPosts.
  cbn [state authToken initialState].
  destruct (truthy (storedToken ls)); simpl;
    (split; [reflexivity |]); split; intros H; try discriminate H;
    repeat split; reflexivity.
Qed.

(** X21: a successful sign-in from a signed-out, quiet view.  When the
    answer arrives in 200..299 and then its body, with a token, the token
    is stored and held, and the effect at once requests the profile and the
    list with it: three requests in all, the last two pending, and the list
    loading.  Until the body has arrived no token is held. *)
Theorem sign_in_starts_session (w : World) (r : Response) (token : value) :
  pending w = [] ->
  truthy (authToken (state w)) = false ->
  strict_eq (authToken (state w)) (seenToken w) = true ->
  ok r = true -> extractToken (payloadOf r) = token -> truthy token = true ->
  let w' := step (step (step w AuthSubmitted) (Arrives 0 (Resolved r)))
              (BodyArrives 0) in
  sent w' = sent w ++ [authRequest (state w); meRequest token;
                       {| url := POSTS_URL; method := "GET";
                          headers := [bearer token]; body := None |}]
  /\ map request (pending w')
     = [meRequest token;
        {| url := POSTS_URL; method := "GET";
           headers := [bearer token]; body := None |}]
  /\ authToken (state w') = token
  /\ localStorage (state w') !! "auth_token" = Some (to_string token)
  /\ isLoading (state w') = true /\ authLoading (state w') = false
  /\ authToken (state (step (step w AuthSubmitted) (Arrives 0 (Resolved r))))
     = authToken (state w).
Proof.
  intros Hquiet Hout Hseen Hok Htok Htruthy w'. subst w'.
  assert (Hnew : strict_eq token (seenToken w) = false).
  { destruct (strict_eq token (seenToken w)) eqn:Heq; [| reflexivity].
    apply strict_eq_spec in Heq. apply strict_eq_spec in Hseen.
    congruence. }
  assert (Hfirst : step w AuthSubmitted
                   = advance (handleAuthSubmit (state w)) w).
  { unfold step, handlerOf, commit, handleAuthSubmit. simpl.
    rewrite Hseen. reflexivity. }
  rewrite Hfirst. unfold payloadOf in Htok.
  destruct (json r) as [e | data] eqn:Hjson.
  { vm_compute in Htok. subst token. discriminate Htruthy. }
  unfold step, handleAuthSubmit, commit. simpl. rewrite Hquiet. simpl.
  rewrite Hseen. simpl. rewrite Hjson, Hok. simpl.
  rewrite Htok, Htruthy. simpl. rewrite Hnew.
  unfold runEffect, tokenEffect, fetchMe, fetchPosts. simpl.
  rewrite Htruthy. simpl. rewrite lookup_insert_eq.
  rewrite <- !app_assoc. simpl. repeat split; reflexivity.
Qed.

(** ** The component before and after authentication *)

Lemma fetchPosts_refines (net : nat -> Outcome) (c : State) :
  truthy (authToken c) = true -> signalsExpiry (net 0%nat) = false ->
  exec net (fun _ => Original.fetchPosts) c
  = unauthenticated (exec net fetchPosts c).
Proof.
  intros Htoken Hexp. unfold exec, unauthenticated, fetchPosts,
    Original.fetchPosts, response_json, throw_when.
  rewrite Htoken. simpl.
  destruct (net 0%nat) as [[m |] | r]; simpl in *;
    [rewrite Hexp; reflexivity | reflexivity |].
  destruct (ok r); simpl.
  - destruct (json r) as [[m |] | data]; simpl;
      [rewrite Hexp; reflexivity | reflexivity | reflexivity].
  - rewrite Hexp. reflexivity.
Qed.

Lemma handleSubmit_refines (net : nat -> Outcome) (c : State) :
  truthy (authToken c) = true -> signalsExpiry (net 1%nat) = false ->
  exec net Original.handleSubmit c = unauthenticated (exec net handleSubmit c).
Proof.
  intros Htoken Hexp. unfold exec, unauthenticated, handleSubmit,
    Original.handleSubmit, throw_when.
  destruct (String.eqb (trim (field (form c) "title")) ""
            || String.eqb (trim (field (form c) "description")) "");
    [reflexivity |].
  rewrite Htoken. simpl.
  destruct (net 0%nat) as [e | r]; simpl; [reflexivity |].
  destruct (ok r); simpl; [| reflexivity].
  unfold fetchPosts, Original.fetchPosts, response_json, throw_when.
  rewrite Htoken. simpl.
  destruct (net 1%nat) as [[m |] | r1]; simpl in *;
    [rewrite Hexp; reflexivity | reflexivity |].
  destruct (ok r1); simpl.
  - destruct (json r1) as [[m |] | data]; simpl;
      [rewrite Hexp; reflexivity | reflexivity | reflexivity].
  - rewrite Hexp. reflexivity.
Qed.

Lemma handleDelete_refines (net : nat -> Outcome) (c : State)
    (confirm : string -> bool) (postId : value) :
  exec net (fun _ => Original.handleDelete confirm postId) c
  = unauthenticated (exec net (fun c => handleDelete c confirm postId) c).
Proof.
  unfold exec, unauthenticated, handleDelete, Original.handleDelete,
    throw_when.
  destruct (confirm _); simpl; [| reflexivity].
  destruct (net 0%nat) as [e | r]; simpl; [reflexivity |].
  destruct (ok r); reflexivity.
Qed.

(** X22: for a signed-in user whose session is not reported expired, the
    authenticated component does what the component before authentication
    did: listing, saving and deleting end in the same state with the same
    result, and send the same requests but for the bearer header.  For a
    delete this holds with no condition at all. *)
Theorem authenticated_refines_original (net : nat -> Outcome) (c : State) :
  (forall confirm postId,
     exec net (fun _ => Original.handleDelete confirm postId) c
     = unauthenticated (exec net (fun c => handleDelete c confirm postId) c))
  /\ (truthy (authToken c) = true ->
      (signalsExpiry (net 0%nat) = false ->
       exec net (fun _ => Original.fetchPosts) c
       = unauthenticated (exec net fetchPosts c))
      /\ (signalsExpiry (net 1%nat) = false ->
          exec net Original.handleSubmit c
          = unauthenticated (exec net handleSubmit c))).
Proof.
  split; [intros; apply handleDelete_refines |].
  intros Htoken. split; intros Hexp.
  - apply fetchPosts_refines; assumption.
  - apply handleSubmit_refines; assumption.
Qed.

(** ** Logout and token extraction, the edges *)

(** X23: a second logout does nothing: once a logout has run, however its
    request settled, [handleLogout] sends no request and changes no cell. *)
Theorem handleLogout_twice (net net' : nat -> Outcome) (c : State) :
  truthy (authToken c) = true ->
  exec net' handleLogout (final (exec net handleLogout c))
  = (inr tt, final (exec net handleLogout c), []).
Proof.
  intros Htoken.
  assert (Hout : authToken (final (exec net handleLogout c)) = VStr "").
  { unfold exec, handleLogout. rewrite Htoken. simpl.
    destruct (net 0%nat); reflexivity. }
  unfold exec at 1. unfold handleLogout at 1. rewrite Hout. reflexivity.
Qed.

(** X24: a body that is not an object carries no token, a bare string
    included: [extractToken] gives the empty string, and a sign-in answered
    in 200..299 with such a body fails with the 'no token returned'
    error. *)
Theorem extractToken_wants_object (net : nat -> Outcome) (c : State)
    (r : Response) (payload : value) :
  (forall kv, payload <> VObj kv) ->
  extractToken payload = VStr ""
  /\ (net 0%nat = Resolved r -> ok r = true -> json r = inr payload ->
      authError (final (exec net handleAuthSubmit c))
      = "No token returned from the API."
      /\ authToken (final (exec net handleAuthSubmit c)) = authToken c).
Proof.
  intros Hshape.
  assert (Hnone : extractToken payload = VStr "").
  { unfold extractToken.
    destruct payload as [| | b | n | s | l | kv]; simpl;
      try reflexivity; try (rewrite orb_true_r; reflexivity).
    exfalso. apply (Hshape kv). reflexivity. }
  split; [exact Hnone |]. intros Hnet Hok Hjson.
  rewrite (handleAuthSubmit_no_token net c r Hnet Hok).
  - simpl. auto.
  - unfold payloadOf. rewrite Hjson, Hnone. reflexivity.
Qed.

(** ** What is sent *)

Lemma sendsOnly_mono (P Q : Request -> Prop) (p : Prog unit) :
  (forall req, P req -> Q req) -> sendsOnly P p -> sendsOnly Q p.
Proof. intros HPQ. induction 1; constructor; auto. Qed.

Lemma advance_polite (P : Request -> Prop) (p : Prog unit) :
  sendsOnly P p -> forall w, politeWorld P w -> politeWorld P (advance p w).
Proof.
  induction 1 as [u | e | f k Hk IH | req k Hreq Hk IH | req k Hk IH];
    intros w [Hs Hp]; simpl; try (split; assumption).
  - apply IH. split; assumption.
  - split; simpl.
    + apply Forall_app. split; [exact Hs | constructor; [exact Hreq |]].
      constructor.
    + apply Forall_app. split; [exact Hp | constructor; [exact Hk |]].
      constructor.
  - split; simpl; [exact Hs |].
    apply Forall_app. split; [exact Hp |].
    constructor; [intros o; exact Hk | constructor].
Qed.

(** The effect and the render do not touch the token. *)
Lemma runEffect_token (w : World) :
  authToken (state (runEffect w)) = authToken (state w).
Proof.
  unfold runEffect.
  apply (tokenEffect_state (state w)
           {| state := state w; pending := pending w; sent := sent w;
              seenToken := authToken (state w) |} eq_refl).
Qed.

Lemma commit_token (w : World) :
  authToken (state (commit w)) = authToken (state w).
Proof.
  unfold commit. destruct (strict_eq _ _); [reflexivity |].
  apply runEffect_token.
Qed.

Lemma heldTokens_head (w : World) (es : list Event) :
  authToken (state w) ∈ heldTokens w es.
Proof. destruct es; simpl; apply elem_of_cons; left; reflexivity. Qed.

Lemma carries_mono (tokens tokens' : list value) (req : Request) :
  (forall t, t ∈ tokens -> t ∈ tokens') ->
  carries tokens req -> carries tokens' req.
Proof. intros Hsub (t & Ht & H). exists t. auto. Qed.

Lemma licensed_mono (tokens tokens' : list value) (req : Request) :
  (forall t, t ∈ tokens -> t ∈ tokens') ->
  licensed tokens req -> licensed tokens' req.
Proof.
  intros Hsub [H | H]; [left; exact H | right].
  eapply carries_mono; eassumption.
Qed.

Lemma licensedOrDelete_mono (tokens tokens' : list value) (req : Request) :
  (forall t, t ∈ tokens -> t ∈ tokens') ->
  licensedOrDelete tokens req -> licensedOrDelete tokens' req.
Proof.
  intros Hsub [H | H]; [left; exact H | right].
  eapply licensed_mono; eassumption.
Qed.

(** A licence that the effect respects is respected by every run whose
    handlers respect it: what is sent is licensed by the tokens held along
    the run. *)
Section Licence.
Variable L : list value -> Request -> Prop.
Hypothesis L_mono : forall tokens tokens' req,
  (forall t, t ∈ tokens -> t ∈ tokens') -> L tokens req -> L tokens' req.
Hypothesis effect_polite : forall c,
  Forall (sendsOnly (L [authToken c])) (tokenEffect c).

Lemma sendsOnly_held (tokens : list value) (token : value) (p : Prog unit) :
  token ∈ tokens -> sendsOnly (L [token]) p -> sendsOnly (L tokens) p.
Proof.
  intros Htoken. apply sendsOnly_mono. intros req. apply L_mono.
  intros t Ht. apply list_elem_of_singleton in Ht. subst t. exact Htoken.
Qed.

Lemma runEffect_polite (tokens : list value) (w : World) :
  authToken (state w) ∈ tokens ->
  politeWorld (L tokens) w -> politeWorld (L tokens) (runEffect w).
Proof.
  intros Htoken Hw. unfold runEffect.
  assert (Hps : Forall (sendsOnly (L tokens)) (tokenEffect (state w))).
  { eapply Forall_impl; [apply effect_polite |].
    intros p. apply sendsOnly_held. exact Htoken. }
  assert (Hw0 : politeWorld (L tokens)
                  {| state := state w; pending := pending w; sent := sent w;
                     seenToken := authToken (state w) |}) by exact Hw.
  revert Hw0 Hps.
  generalize ({| state := state w; pending := pending w; sent := sent w;
                 seenToken := authToken (state w) |}).
  induction (tokenEffect (state w)) as [| p ps IH]; intros w1 Hw1 Hps; simpl;
    [exact Hw1 |].
  apply Forall_cons in Hps as [Hp Hps].
  apply IH; [apply advance_polite; assumption | exact Hps].
Qed.

Lemma commit_polite (tokens : list value) (w : World) :
  authToken (state w) ∈ tokens ->
  politeWorld (L tokens) w -> politeWorld (L tokens) (commit w).
Proof.
  intros Htoken Hw. unfold commit.
  destruct (strict_eq _ _); [exact Hw | apply runEffect_polite; assumption].
Qed.

Lemma step_polite (tokens : list value) (w : World) (e : Event) :
  sendsOnly (L [authToken (state w)]) (handlerOf (state w) e) ->
  authToken (state w) ∈ tokens -> authToken (state (step w e)) ∈ tokens ->
  politeWorld (L tokens) w -> politeWorld (L tokens) (step w e).
Proof.
  intros Hhandler Hbefore Hafter Hw.
  destruct (step_cases w e) as [-> | [Hstep | (i & t & o & Hi & _ & Hstep)]];
    [exact Hw | |]; rewrite Hstep in *; rewrite commit_token in Hafter.
  - apply commit_polite; [exact Hafter |].
    apply advance_polite; [| exact Hw].
    apply (sendsOnly_held tokens (authToken (state w))); assumption.
  - destruct Hw as [Hs Hp].
    apply commit_polite; [exact Hafter |].
    apply advance_polite.
    + eapply Forall_lookup_1 in Hp; [| exact Hi]. apply Hp.
    + split; simpl; [exact Hs | apply Forall_delete, Hp].
Qed.

Lemma steps_polite (tokens : list value) (es : list Event) :
  forall w,
    (forall t, t ∈ heldTokens w es -> t ∈ tokens) -> politeRun L w es ->
    politeWorld (L tokens) w -> politeWorld (L tokens) (steps w es).
Proof.
  induction es as [| e es IH]; intros w Hheld Hrun Hw; simpl; [exact Hw |].
  destruct Hrun as [Hhandler Hrun].
  assert (Hlater : forall t, t ∈ heldTokens (step w e) es -> t ∈ tokens).
  { intros t Ht. apply Hheld. simpl. apply elem_of_cons. right. exact Ht. }
  apply IH; [exact Hlater | exact Hrun |].
  apply step_polite; [exact Hhandler | | | exact Hw].
  - apply Hheld, heldTokens_head.
  - apply Hlater, heldTokens_head.
Qed.

Lemma sent_polite (ls : gmap string string) (es : list Event)
    (req : Request) :
  politeRun L (mount ls) es ->
  req ∈ sent (steps (mount ls) es) -> L (heldTokens (mount ls) es) req.
Proof.
  intros Hrun Hreq.
  assert (H : politeWorld (L (heldTokens (mount ls) es))
                (steps (mount ls) es)).
  { apply steps_polite; [auto | exact Hrun |].
    apply runEffect_polite; [| split; constructor].
    rewrite <- runEffect_token. apply heldTokens_head. }
  destruct H as [Hsent _]. rewrite Forall_forall in Hsent. auto.
Qed.

End Licence.

(** A request of a handler started on the render of [c] is a sign-in or
    carries the bearer of the token of [c], which is truthy. *)
Ltac carries_tac :=
  eexists; split; [apply list_elem_of_singleton; reflexivity |];
  split; [eassumption |];
  first [ apply elem_of_cons; left; reflexivity
        | apply elem_of_cons; right; apply elem_of_cons; left; reflexivity ].

Ltac licensed_tac :=
  repeat match goal with
    | H : negb _ = false |- _ => apply negb_false_iff in H
    | H : negb _ = true |- _ => apply negb_true_iff in H
    end;
  unfold licensedOrDelete, licensed, isSignIn, carries; simpl;
  try match goal with
      | |- context [if ?x then _ else _] => destruct x
      end;
  first [ left; reflexivity
        | left; left; reflexivity
        | left; right; reflexivity
        | right; left; left; reflexivity
        | right; left; right; reflexivity
        | right; right; carries_tac
        | right; carries_tac ].

Ltac polite_walk :=
  repeat (simpl; match goal with
    | |- sendsOnly _ (Ret _) => apply sendsOnly_ret
    | |- sendsOnly _ (Throw _) => apply sendsOnly_throw
    | |- sendsOnly _ (Update _ _) => apply sendsOnly_update
    | |- sendsOnly _ (Await _ _) =>
        let o := fresh "o" in
        apply sendsOnly_await; [licensed_tac | intros o]
    | |- sendsOnly _ (AwaitBody _ _) => apply sendsOnly_body
    | |- sendsOnly _ ?p =>
        match p with
        | context [match ?x with _ => _ end] => destruct x eqn:?
        end
    end).

(** By themselves the handlers guard every request but the DELETE. *)
Lemma handlers_guarded (c : State) (e : Event) :
  sendsOnly (licensedOrDelete [authToken c]) (handlerOf c e).
Proof. destruct e; handlers_unfold; polite_walk. Qed.

(** Behind the view the DELETE is guarded too: a delete is offered only
    while a token is held. *)
Lemma handlers_offered (c : State) (e : Event) :
  offers c e = true -> sendsOnly (licensed [authToken c]) (handlerOf c e).
Proof.
  intros Hoffer.
  destruct e; handlers_unfold; try solve [clear Hoffer; polite_walk].
  unfold offers, isAuthed in Hoffer.
  destruct (truthy (authToken c)) eqn:Htoken; [| discriminate Hoffer].
  clear Hoffer. polite_walk.
Qed.

Lemma effect_licensed (c : State) :
  Forall (sendsOnly (licensed [authToken c])) (tokenEffect c).
Proof.
  unfold tokenEffect. destruct (truthy (authToken c)) eqn:Htoken;
    repeat apply Forall_cons_2; try apply Forall_nil_2;
    handlers_unfold; polite_walk.
Qed.

Lemma effect_guarded (c : State) :
  Forall (sendsOnly (licensedOrDelete [authToken c])) (tokenEffect c).
Proof.
  eapply Forall_impl; [apply effect_licensed |].
  intros p. apply sendsOnly_mono. intros req H. right. exact H.
Qed.

Lemma every_run_guarded (w : World) (es : list Event) :
  politeRun licensedOrDelete w es.
Proof.
  revert w. induction es as [| e es IH]; intros w; simpl; [exact I |].
  split; [apply handlers_guarded | apply IH].
Qed.

Lemma viewDriven_licensed (w : World) (es : list Event) :
  viewDriven w es -> politeRun licensed w es.
Proof.
  revert w. induction es as [| e es IH]; intros w; simpl; [auto |].
  intros [Hoffer Hview]. split; [apply handlers_offered, Hoffer | auto].
Qed.

(** X25: whatever the events and the order of the responses, a request
    that is sent is a sign-in (to [/login] or [/register]), a DELETE, or
    carries the bearer of a truthy token that was held at some point of the
    run: the profile, the list, a save and a logout are never requested
    without a token.  In a run a user can produce the same holds of the
    DELETE: every request but a sign-in carries a token that was held. *)
Theorem requests_carry_a_token (ls : gmap string string) (es : list Event)
    (req : Request) :
  req ∈ sent (steps (mount ls) es) ->
  (method req = "DELETE" \/ isSignIn req
   \/ carries (heldTokens (mount ls) es) req)
  /\ (viewDriven (mount ls) es ->
      isSignIn req \/ carries (heldTokens (mount ls) es) req).
Proof.
  intros Hreq. split.
  - apply (sent_polite licensedOrDelete licensedOrDelete_mono effect_guarded
             ls es req); [apply every_run_guarded | exact Hreq].
  - intros Hview.
    apply (sent_polite licensed licensed_mono effect_licensed ls es req);
      [apply viewDriven_licensed, Hview | exact Hreq].
Qed.

(** ** Typing and switching the mode *)

(** X26: switching the mode of the sign-in form keeps what was typed and
    the session, and empties the sign-in error; the next sign-in goes to
    [/register] with the name and the confirmation when the mode is
    ['register'], and to [/login] without them for every other mode. *)
Theorem handleAuthMode_selects_endpoint (net : nat -> Outcome) (c : State)
    (mode : string) :
  let c' := final (run net (handleAuthMode mode) c []) in
  authForm c' = authForm c /\ authToken c' = authToken c
  /\ authError c' = ""
  /\ requests (exec net handleAuthSubmit c') = [authRequest c']
  /\ exists b, body (authRequest c') = Some b
       /\ if String.eqb mode "register"
          then url (authRequest c') = AUTH_URL +:+ "/register"
               /\ prop "name" b = VStr (trim (field (authForm c) "name"))
               /\ prop "password_confirmation" b
                  = VStr (field (authForm c) "passwordConfirmation")
          else url (authRequest c') = AUTH_URL +:+ "/login"
               /\ prop "name" b = VUndef
               /\ prop "password_confirmation" b = VUndef.
Proof.
  intros c'. repeat split; try reflexivity; [apply handleAuthSubmit_sends |].
  subst c'. unfold authRequest. simpl.
  destruct (String.eqb mode "register"); eexists; split; try reflexivity;
    repeat split; reflexivity.
Qed.

(** X27: what is typed in the post form is what a save sends.  With a token
    held, after a title and a description are typed, both non-blank, the
    first request carries them trimmed, as a PUT to the edited post or a
    POST when none is edited; when one of them is blank nothing is sent. *)
Theorem typed_post_is_sent (net : nat -> Outcome) (c : State)
    (t d : string) :
  truthy (authToken c) = true ->
  let c' := final (run net (handleChange "title" t;;
                            handleChange "description" d) c []) in
  (trim t <> "" -> trim d <> "" ->
   hd_error (requests (exec net handleSubmit c'))
   = Some {| url := if isEditing c
                    then POSTS_URL +:+ "/" +:+ to_string (editingId c)
                    else POSTS_URL;
             method := if isEditing c then "PUT" else "POST";
             headers := [("Content-Type", "application/json");
                         bearer (authToken c)];
             body := Some (VObj [("title", VStr (trim t));
                                 ("description", VStr (trim d))]) |})
  /\ (trim t = "" \/ trim d = "" ->
      requests (exec net handleSubmit c') = []
      /\ error (final (exec net handleSubmit c'))
         = "Title and description are required.").
Proof.
  intros Htoken c'.
  assert (Hft : field (form c') "title" = t).
  { unfold c', field. simpl. rewrite lookup_insert_ne by discriminate.
    rewrite lookup_insert_eq. reflexivity. }
  assert (Hfd : field (form c') "description" = d).
  { unfold c', field. simpl. rewrite lookup_insert_eq. reflexivity. }
  split.
  - intros Ht Hd.
    rewrite handleSubmit_first_request;
      [| rewrite Hft; exact Ht | rewrite Hfd; exact Hd | exact Htoken].
    unfold submitRequest. rewrite Hft, Hfd. reflexivity.
  - intros Hblank. rewrite handleSubmit_blank.
    + split; reflexivity.
    + rewrite Hft, Hfd. exact Hblank.
Qed.

(** * Examples for the rest of the component *)

(** Witness of X1: no token; and a token that [/auth/me] answers with 404. *)
Lemma fetchMe_resolves_or_clears_witness :
  run (always (reply 404 VNull)) (fetchMe (VStr "")) signedIn []
  = (inr tt, signedIn, [])
  /\ run (always (reply 404 VNull)) (fetchMe (VStr "abc")) signedIn []
     = (inr tt, cleared signedIn, [meRequest (VStr "abc")]).
Proof.
  split.
  - apply (proj1 (fetchMe_resolves_or_clears (always (reply 404 VNull))
                    (VStr "") signedIn)). reflexivity.
  - apply (proj2 (fetchMe_resolves_or_clears (always (reply 404 VNull))
                    (VStr "abc") signedIn)). reflexivity.
Defined.


(** Witness of X3: the network is down. *)
Lemma fetchPosts_error_message_witness :
  error (final (exec (always (Rejected (ErrorObj "Failed to fetch")))
                  fetchPosts signedIn)) = "Failed to fetch"
  /\ authToken (final (exec (always (Rejected (ErrorObj "Failed to fetch")))
                         fetchPosts signedIn)) = VStr "abc".
Proof.
  rewrite (proj1 (fetchPosts_error_message
                    (always (Rejected (ErrorObj "Failed to fetch")))
                    signedIn "Failed to fetch" eq_refl
                    (or_introl eq_refl))).
  split; reflexivity.
Defined.

(** Witness of X4: a 422 whose body carries a token. *)
Lemma handleAuthSubmit_refused_witness :
  authError (final (exec (always (reply 422 refusalWithToken))
                      handleAuthSubmit signedOut)) = "Invalid credentials."
  /\ authToken (final (exec (always (reply 422 refusalWithToken))
                         handleAuthSubmit signedOut)) = VStr "".
Proof.
  rewrite (proj1 (handleAuthSubmit_refused
                    (always (reply 422 refusalWithToken)) signedOut)
             {| status := 422; json := inr refusalWithToken |}
             eq_refl eq_refl).
  split; reflexivity.
Defined.


(** Witness of X7: [january] is edited and saved. *)
Lemma edit_then_submit_witness :
  hd_error
    (requests (exec savedThenListed handleSubmit
                 (final (run savedThenListed (handleEdit january)
                           signedIn []))))
  = Some {| url := "http://127.0.0.1:8000/api/posts/1";
            method := "PUT";
            headers := [("Content-Type", "application/json");
                        ("Authorization", "Bearer abc")];
            body := Some (VObj [("title", VStr "title");
                                ("description", VStr "text")]) |}.
Proof.
  apply (edit_then_submit savedThenListed signedIn january "title" "text");
    first [reflexivity | vm_compute; discriminate].
Defined.

(** Witness of X8: the first render is back after an edit is cancelled. *)
Lemma edit_then_cancel_witness :
  final (run (always (reply 200 VNull))
           (handleEdit january;; handleCancelEdit) signedIn [])
  = signedIn.
Proof.
  apply (proj2 (edit_then_cancel (always (reply 200 VNull)) signedIn january));
    reflexivity.
Defined.

(** Witness of X9: the server answers a creation with 500. *)
Lemma handleSubmit_failed_witness :
  error (final (exec (always (reply 500 VNull)) handleSubmit drafted))
  = "Failed to create post."
  /\ form (final (exec (always (reply 500 VNull)) handleSubmit drafted))
     = form drafted.
Proof.
  rewrite (proj1 (handleSubmit_failed (always (reply 500 VNull)) drafted
                    ltac:(vm_compute; discriminate)
                    ltac:(vm_compute; discriminate) eq_refl)
             {| status := 500; json := inr VNull |} eq_refl eq_refl).
  split; reflexivity.
Defined.

(** Witness of X10: the server answers a delete with 500. *)
Lemma handleDelete_failed_witness :
  posts (final (exec (always (reply 500 VNull))
                  (fun c => handleDelete c yes (VNum 1))
                  (setPosts [january; march] signedIn)))
  = [january; march]
  /\ error (final (exec (always (reply 500 VNull))
                     (fun c => handleDelete c yes (VNum 1))
                     (setPosts [january; march] signedIn)))
     = "Failed to delete post.".
Proof.
  rewrite (proj1 (handleDelete_failed (always (reply 500 VNull))
                    (setPosts [january; march] signedIn) yes (VNum 1) eq_refl)
             {| status := 500; json := inr VNull |} eq_refl eq_refl).
  split; reflexivity.
Defined.

(** Witness of X11: [january] is deleted twice. *)
Lemma handleDelete_twice_witness :
  posts (final (exec (always (reply 204 VNull))
                  (fun c => handleDelete c yes (VNum 1))
                  (final (exec (always (reply 204 VNull))
                            (fun c => handleDelete c yes (VNum 1))
                            (setPosts [january; march] signedIn)))))
  = posts (final (exec (always (reply 204 VNull))
                    (fun c => handleDelete c yes (VNum 1))
                    (setPosts [january; march] signedIn))).
Proof.
  apply (handleDelete_twice (always (reply 204 VNull))
           (always (reply 204 VNull)) (setPosts [january; march] signedIn)
           yes (VNum 1) {| status := 204; json := inr VNull |}
           {| status := 204; json := inr VNull |});
    reflexivity.
Defined.

(** Witness of X12: two of the four posts were created on the same day. *)
Lemma sortedPosts_never_above_newer_witness :
  StronglySorted
    (fun a b => date_gt isoDay (created_at b) (created_at a) = false)
    (sortedPosts isoDay [january; march; twin; december]).
Proof.
  apply (proj2 (sortedPosts_never_above_newer isoDay
                  [january; march; twin; december])).
  repeat constructor; eexists; vm_compute; reflexivity.
Defined.

Example sortedPosts_ties_example :
  sortedPosts isoDay [january; march; twin; december]
  = [march; january; twin; december].
Proof. vm_compute. reflexivity. Qed.

(** Witness of X13: the latest of two posts is one of them. *)
Lemma latestUpdated_is_a_post_witness : march ∈ [january; march].
Proof.
  apply (proj2 (latestUpdated_is_a_post isoDay [january; march]) march).
  vm_compute. reflexivity.
Defined.

(** Witness of X14: an undated post in front, and one behind a dated
    post. *)
Lemma latestUpdated_undated_posts_witness :
  latestUpdated isoDay [undated; january] = Some undated
  /\ exists r, latestUpdated isoDay [january; undated; march] = Some r
               /\ maximalUpdated isoDay [january; undated; march] r.
Proof.
  split.
  - apply (proj1 (latestUpdated_undated_posts isoDay undated [january])).
    vm_compute. reflexivity.
  - apply (proj2 (latestUpdated_undated_posts isoDay january
                    [undated; march])).
    eexists. vm_compute. reflexivity.
Defined.

(** Witness of X15: three dated posts. *)
Lemma lastUpdatedLabel_shows_maximum_witness :
  exists (r : Post) (t : Z),
    r ∈ [january; march; december] /\ isoDay (updated_at r) = Some t
    /\ Forall (updatedBy isoDay t) [january; march; december]
    /\ lastUpdatedLabel isoDay plain [january; march; december]
       = VStr (plain t).
Proof.
  apply (proj2 (lastUpdatedLabel_shows_maximum isoDay plain
                  [january; march; december])).
  - discriminate.
  - repeat constructor; try (eexists; vm_compute; reflexivity).
Defined.

Example lastUpdatedLabel_example :
  lastUpdatedLabel isoDay plain [january; march; december]
  = VStr "1709596800000".
Proof. vm_compute. reflexivity. Qed.

(** Witness of X16: a loaded view with one post shows its card. *)
Lemma listPanel_shows_witness :
  [january] <> [] /\ [january] ≡ₚ posts loaded.
Proof.
  apply (proj2 (proj2 (listPanel_shows isoDay loaded) eq_refl) [january]).
  vm_compute. reflexivity.
Defined.

(** Witness of X18: signed in from the store, both answers arrived. *)
Lemma quiet_means_idle_witness :
  busy (state (steps (mount stored) bothArrive)) = false.
Proof.
  apply (quiet_means_idle stored bothArrive). vm_compute. reflexivity.
Defined.

(** Witness of X20: the first render with and without a stored token. *)
Lemma mount_requests_witness :
  sent (mount stored) = [meRequest (VStr "abc"); listRequest signedIn]
  /\ sent (mount ∅) = [].
Proof.
  split.
  - apply (proj1 (proj2 (mount_requests stored))). reflexivity.
  - apply (proj2 (proj2 (mount_requests ∅))). reflexivity.
Defined.

(** Witness of X21: a sign-in from the first render without a token. *)
Lemma sign_in_starts_session_witness :
  authToken (state (step (step (step (mount ∅) AuthSubmitted)
                            (Arrives 0 (reply 200 tokenPayload)))
                      (BodyArrives 0)))
  = VStr "t0k"
  /\ length (sent (step (step (step (mount ∅) AuthSubmitted)
                           (Arrives 0 (reply 200 tokenPayload)))
                     (BodyArrives 0))) = 3%nat.
Proof.
  destruct (sign_in_starts_session (mount ∅)
              {| status := 200; json := inr tokenPayload |} (VStr "t0k"))
    as (Hsent & _ & Htoken & _); try (vm_compute; reflexivity).
  split; [exact Htoken |]. unfold reply. rewrite Hsent. reflexivity.
Defined.

(** Witness of X22: a save and the list fetch after it, with and without
    the bearer. *)
Lemma authenticated_refines_original_witness :
  exec savedThenListed Original.handleSubmit drafted
  = unauthenticated (exec savedThenListed handleSubmit drafted).
Proof.
  apply (proj2 (proj2 (authenticated_refines_original savedThenListed drafted)
                  eq_refl)).
  reflexivity.
Defined.

(** Witness of X23: two logouts. *)
Lemma handleLogout_twice_witness :
  exec (always (reply 204 VNull)) handleLogout
    (final (exec (always (reply 500 VNull)) handleLogout signedIn))
  = (inr tt, final (exec (always (reply 500 VNull)) handleLogout signedIn),
     []).
Proof.
  apply (handleLogout_twice (always (reply 500 VNull))
           (always (reply 204 VNull)) signedIn).
  reflexivity.
Defined.

(** Witness of X24: the body is the bare token. *)
Lemma extractToken_wants_object_witness :
  extractToken (VStr "t0k") = VStr ""
  /\ authError (final (exec (always (reply 200 (VStr "t0k")))
                         handleAuthSubmit signedOut))
     = "No token returned from the API.".
Proof.
  destruct (extractToken_wants_object (always (reply 200 (VStr "t0k")))
              signedOut {| status := 200; json := inr (VStr "t0k") |}
              (VStr "t0k") ltac:(discriminate)) as (H1 & H2).
  split; [exact H1 |]. apply (H2 eq_refl eq_refl eq_refl).
Defined.

(** Witness of X25: a sign-in from the signed-out view; the list request
    that follows carries the token received. *)
Lemma requests_carry_a_token_witness :
  isSignIn {| url := POSTS_URL; method := "GET";
              headers := [bearer (VStr "t0k")]; body := None |}
  \/ carries (heldTokens (mount ∅)
                [AuthSubmitted; Arrives 0 (reply 200 tokenPayload);
                 BodyArrives 0])
       {| url := POSTS_URL; method := "GET";
          headers := [bearer (VStr "t0k")]; body := None |}.
Proof.
  apply (requests_carry_a_token ∅
           [AuthSubmitted; Arrives 0 (reply 200 tokenPayload); BodyArrives 0]).
  - vm_compute. do 2 (apply elem_of_cons; right).
    apply elem_of_cons. left. reflexivity.
  - vm_compute. auto.
Defined.

(** Witness of X27: a title and a text are typed on the first render of a
    stored session, then saved; and the title is left blank. *)
Lemma typed_post_is_sent_witness :
  hd_error
    (requests
       (exec savedThenListed handleSubmit
          (final (run savedThenListed
                    (handleChange "title" " On types ";;
                     handleChange "description" "notes")
                    signedIn []))))
  = Some {| url := "http://127.0.0.1:8000/api/posts";
            method := "POST";
            headers := [("Content-Type", "application/json");
                        ("Authorization", "Bearer abc")];
            body := Some (VObj [("title", VStr "On types");
                                ("description", VStr "notes")]) |}.
Proof.
  apply (proj1 (typed_post_is_sent savedThenListed signedIn
                  " On types " "notes" eq_refl));
    vm_compute; discriminate.
Defined.
